(* ===== verification/_CoqProject ===== *)
-Q . S2P
Prelude.v
RustStr.v
Sheet.v
Projector.v
RoleSpec.v
Render.v
FileSys.v
Config.v
Pipeline.v
EndToEnd.v
Machine.v
