(* ===== verification/Prelude.v ===== *)
(** * gen_enum_cs: a verification development of [src/src/code.rs]

    The program reads a list of generation jobs from [inputs.json], and for
    each job opens an xlsx workbook, finds a worksheet, matches the job's
    declared header names against the sheet's first row, walks every row of
    the sheet collecting one value per matched column, turns the collected
    rows into [(name, type, remark)] triples, renders them through the askama
    template [code.txt] and replaces the output file with the result.  The
    first job that fails stops the run.

    ** Parts of the program and the files that model them

    - [Prelude] (this file): the notation scope [gen_scope] ([NL] for the
      one-character string ["\n"], [⊕] for concatenation), the tactics
      [simpl_str] and [case_if], the hint databases [gen] and [gen_rw], and
      the generic lemmas on strings and on [enumerate]/[positions] (the
      indices of a list whose elements satisfy a test) that the components
      share.
    - [RustStr]: the two [str] methods the program uses on cell text,
      [starts_with] (line 80) and [replace] (line 89), from their meaning
      in Rust's standard library: [str_replace] scans for non-overlapping
      matches left to right, by structural recursion with a skip count (no
      fuel).  [format_remark] is the remark continuation of lines 87-89.
    - [Sheet]: the data read through calamine: [Data] (calamine's cell enum,
      spec-modelled), its [Display] text [cell_to_string], a [Range] as a
      list of rows, [range_headers], a [Workbook] as a list of named sheets,
      [worksheet_range], and [header_cells], lines 63-73 (SheetExtractor).
    - [Projector]: the RowProjector.  [collect_loop]/[collect_row] are the
      inner loop of lines 77-91 with its [break] and [continue],
      [rows_loop]/[code_tuples] the outer loop of lines 75-97, [to_tuple]
      and [tuples_vec] the indexing of lines 99-102, [project] the whole of
      lines 63-102.  A Rust panic on out-of-range indexing is [None].
    - [RoleSpec]: the spec's role-bound projection (section 9), an abstract
      contract written from the spec: each role is the column of the header
      cell carrying its name.
    - [Render]: the askama [CodeTemplate] (lines 15-21, rendered on line
      117) as the class [Template], its contract (spec 4.4) as the class
      [TemplateLaws], and [code_txt], an instance modelled from the spec
      because [templates/code.txt] is not under [src/].
    - [FileSys]: the file system as a [gmap] from paths to files (text or
      a parsed workbook) with a set of paths the system refuses to remove or
      create; [read_to_string], [open_workbook], [path_exists],
      [remove_file], [file_create] and [write_all].
    - [Config]: the job file.  [Input] (lines 23-31) and [Code] (lines
      6-13, with its [#[serde(rename)]]s) and the code their
      [#[derive(Deserialize, Serialize)]] generates, over a JSON value type:
      the object visitor with its duplicate, missing and unknown keys, the
      array visitor with its length checks, and the field types [String],
      [Vec<String>] and [Option<String>]; [serde_inputs] is line 49 given
      serde_json's text parser.
    - [Pipeline]: the driver.  A [World] is the file system and the printed
      lines; [load_input_from_json] (lines 44-52, with the decoder as a
      parameter, instantiated by [Config.serde_inputs]), [handle_input] (lines 54-121), its output step
      [write_output] (lines 110-118), [run_jobs] (the loop of lines 39-41)
      and [gen_code] (lines 33-42) pass the world explicitly.  Errors
      returned with [?] are [HErr], panics from [unwrap] or [expect] are
      [HPanic]; both carry the world at the point of failure, so partial
      effects stay visible.  [test_gen_code] is the test module (lines
      123-130).
    - [EndToEnd]: one job composed along the spec's control flow
      (SheetExtractor, RowProjector, TemplateRenderer, OutputWriter),
      against any template that keeps [TemplateLaws].
    - [Machine]: the same driver as a small-step machine, one step per
      effect in program order (open and project a job, remove, create,
      render and write, print), as an inductive [step] and an executable
      [step_fn]; [boot] is the state at the start of [gen_code]'s job
      loop, and five steps of a job compute [handle_input].

    ** What the theorems show

    - [Projector]: the functional behaviour of
      the inner loop on every branch; the outer loop equals a filter over
      the rows; legend rows dropped; the arity invariant of collected rows;
      bounds (no out-of-range read on a rectangular range; three matched
      columns never panic); the panic on fewer than three; the header row
      emitted as data, and blank rows kept by the row walk.
    - [Sheet]: header matching is set membership, insensitive to the order
      and repetition of the declared names, and increasing.
    - [RustStr]: the formatting equals a character-wise definition, has an
      inverse (round trip), a computed length, and leaves no raw line
      break.
    - [RoleSpec]: refinement: on the layout the code assumes (name column
      first and marked [##], distinct names, type before remark, rectangular
      range) [project] equals the role-bound projection; on the same layout
      with the remark column before the type column, [project] is the
      role-bound projection with type and remark exchanged in every field.
    - [Pipeline]: zero jobs change nothing; a successful job replaces its
      output completely and touches no other path; abort on first failure;
      a re-run on the generator's own output is stable when outputs and
      inputs are disjoint; a render failure leaves the destination
      truncated; a projection panic leaves the world unchanged.  These are
      proved against any
      [Template] with [TemplateLaws] where the contract matters.
    - [EndToEnd]: on the layout the code assumes ([RoleSpec.layout_ok]), a
      successful job leaves at its output path exactly the template's
      head, one field block per field of the role-bound projection in row
      order, and the tail.
    - [Config]: round trip of the derived [Serialize] and [Deserialize];
      duplicate and missing fields refused, unknown keys skipped; the array
      form and its length.
    - [Machine]: invariants of every reachable state, by rule induction on
      [rtc step]: a frame (paths that are no job's output keep their
      contents) over all states of a run; and the crash states of one job:
      the output holds its old contents, nothing, an empty file or the new
      text, never anything else.

    No fuel or bound is needed: every loop of the program is over a finite
    list (rows, cells, jobs) and is modelled by structural recursion on it;
    [run_n] runs the machine for a given number of steps only to state
    witnesses and the lemmas tying it to [Pipeline] (a job takes five
    steps, each other instruction one).

    ** Not modelled

    calamine's xlsx parsing (a workbook is given already parsed) and its
    text for floats and dates (kept as their displayed text); serde_json's
    text parser (the JSON value is the model's input; JSON numbers are kept
    as integers, which no field of the program uses); askama's template
    engine beyond the contract; partial writes and I/O errors other than a
    refused path for [remove_file] or [File::create]: [write_all] on the
    file just created always succeeds, so the [Err] that the [?] of line
    117 could return is not modelled.
*)

From Stdlib Require String Ascii.
From stdpp Require Export base list strings sorting sets.

(** String literals are read in stdpp's scope; [gen_scope] holds the
    development's own notations. *)
Declare Scope gen_scope.
Delimit Scope gen_scope with gen.
Open Scope gen_scope.

(** ** Notations *)

(** The line break character ['\n']. *)
Abbreviation LF := (Ascii.ascii_of_nat 10).

(** The one-character string ["\n"]. *)
Notation "'NL'" := (String.String LF String.EmptyString) (at level 0) : gen_scope.

(** [s ⊕ t] is string concatenation, Rust's [push_str]. *)
Infix "⊕" := String.append (at level 60, right associativity) : gen_scope.

(** ** Tactics and hints *)

Create HintDb gen.
Create Rewrite HintDb gen_rw.

(** Normalise string concatenations and lengths with the [gen] rewrite base. *)
Ltac simpl_str := autorewrite with gen_rw in *.

(** Case on every [if]/[match] in the goal, keeping the equation. *)
Ltac case_if :=
  match goal with
  | |- context [if ?b then _ else _] => let E := fresh "E" in destruct b eqn:E
  | H : context [if ?b then _ else _] |- _ => let E := fresh "E" in destruct b eqn:E
  end.

(** ** Strings *)

Section Strings.
Implicit Types s t u p : string.

Lemma append_nil_l s : "" ⊕ s = s.
Proof. reflexivity. Qed.

Lemma append_cons c s t : String c s ⊕ t = String c (s ⊕ t).
Proof. reflexivity. Qed.

Lemma append_nil_r s : s ⊕ "" = s.
Proof. induction s as [|c s IH]; [done|]. by rewrite append_cons, IH. Qed.

Lemma append_assoc s t u : (s ⊕ t) ⊕ u = s ⊕ (t ⊕ u).
Proof. induction s as [|c s IH]; [done|]. by rewrite !append_cons, IH. Qed.

Lemma length_append s t : String.length (s ⊕ t) = String.length s + String.length t.
Proof. induction s as [|c s IH]; [done|]. rewrite append_cons. cbn. by rewrite IH. Qed.

(** [String.prefix p s] holds exactly when [s] is [p] followed by a rest. *)
Lemma prefix_spec p s : String.prefix p s = true ↔ ∃ t, s = p ⊕ t.
Proof.
  revert s. induction p as [|c p IH]; intros s.
  - destruct s; cbn; split; eauto.
  - destruct s as [|d s]; cbn.
    + split; [done|]. by intros [t ?].
    + destruct (Ascii.ascii_dec c d) as [->|Hne].
      * rewrite IH. split; intros [t Ht]; exists t; [by rewrite Ht|].
        rewrite append_cons in Ht. congruence.
      * split; [done|]. intros [t Ht]. rewrite append_cons in Ht. congruence.
Qed.

Lemma prefix_append p t : String.prefix p (p ⊕ t) = true.
Proof. apply prefix_spec. eauto. Qed.

Lemma prefix_cons_ne c d p s : c ≠ d → String.prefix (String c p) (String d s) = false.
Proof. intros Hne. cbn. by destruct (Ascii.ascii_dec c d). Qed.
End Strings.

#[export] Hint Rewrite append_nil_l append_nil_r append_cons append_assoc
  length_append : gen_rw.
#[export] Hint Resolve prefix_append : gen.

(** ** Lists *)

(** Rust's [Iterator::enumerate]: each element with its position. *)
Definition enumerate {A} (l : list A) : list (nat * A) :=
  zip (seq 0 (length l)) l.

(** The positions of the elements satisfying [P], in increasing order:
    [l.iter().enumerate().filter(|(_, x)| P(x)).map(|(i, _)| i).collect()]. *)
Definition positions {A} (P : A → bool) (l : list A) : list nat :=
  fst <$> filter (λ ix : nat * A, P ix.2 = true) (enumerate l).

Section Enumerate.
Context {A : Type}.
Implicit Types (l : list A) (P Q : A → bool).

Lemma elem_of_zip_seq l k i x :
  (i, x) ∈ zip (seq k (length l)) l ↔ k ≤ i ∧ l !! (i - k) = Some x.
Proof.
  revert k i. induction l as [|y l IH]; intros k i; cbn.
  - split; [intros Hin; by apply elem_of_nil in Hin|]. by intros [_ ?].
  - rewrite elem_of_cons, IH. split.
    + intros [[= -> ->]|[Hk Hl]].
      * by rewrite Nat.sub_diag.
      * split; [lia|]. assert (i - k = S (i - S k)) as Hik by lia.
        rewrite Hik. exact Hl.
    + intros [Hk Hl]. destruct (decide (i = k)) as [->|Hne].
      * rewrite Nat.sub_diag in Hl. cbn in Hl. simplify_eq. by left.
      * right. split; [lia|]. assert (i - k = S (i - S k)) as Hik by lia.
        rewrite Hik in Hl. exact Hl.
Qed.

Lemma elem_of_enumerate l i x : (i, x) ∈ enumerate l ↔ l !! i = Some x.
Proof.
  unfold enumerate. rewrite elem_of_zip_seq, Nat.sub_0_r.
  split; [by intros [_ ?]|]. intros; split; [lia|done].
Qed.

Lemma elem_of_positions P l i : i ∈ positions P l ↔ ∃ x, l !! i = Some x ∧ P x = true.
Proof.
  unfold positions. rewrite list_elem_of_fmap. split.
  - intros [[j x] [-> Hin]]. apply list_elem_of_filter in Hin as [HP Hin].
    apply elem_of_enumerate in Hin. eauto.
  - intros (x & Hl & HP). exists (i, x). split; [done|].
    apply list_elem_of_filter. split; [done|]. by apply elem_of_enumerate.
Qed.

Lemma positions_lt P l i : i ∈ positions P l → i < length l.
Proof. intros (x & Hl & _)%elem_of_positions. by eapply lookup_lt_Some. Qed.

Lemma positions_ext P Q l : (∀ x, P x = Q x) → positions P l = positions Q l.
Proof.
  intros HPQ. unfold positions. f_equal. apply list_filter_iff. intros ix. by rewrite HPQ.
Qed.

Lemma zip_seq_sorted P l k :
  StronglySorted lt (fst <$> filter (λ ix : nat * A, P ix.2 = true) (zip (seq k (length l)) l)).
Proof.
  revert k. induction l as [|y l IH]; intros k; [constructor|].
  change (zip (seq k (length (y :: l))) (y :: l))
    with ((k, y) :: zip (seq (S k) (length l)) l).
  rewrite filter_cons. case_decide; [|apply IH]. rewrite fmap_cons.
  constructor; [apply IH|]. apply Forall_forall. intros i Hi.
  apply list_elem_of_fmap in Hi as [[j x] [-> Hin]].
  apply list_elem_of_filter in Hin as [_ Hin]. apply elem_of_zip_seq in Hin. cbn. lia.
Qed.

(** The matched positions come in strictly increasing (left-to-right) order. *)
Lemma positions_sorted P l : StronglySorted lt (positions P l).
Proof. apply zip_seq_sorted. Qed.

End Enumerate.
