(* ===== verification/RustStr.v ===== *)
(** * RustStr: the [str] methods the generator applies to cell text

    [starts_with] (line 80 of [src/src/code.rs]) and [str_replace], Rust's
    [str::replace], which the program calls at line 89 to turn every line
    break of a cell into a line break followed by the doc-comment
    continuation [        /// ].  [str_replace] follows the standard
    library's algorithm: scan left to right for non-overlapping matches of
    the pattern, copying the text between them and the replacement for each
    match.  The scan keeps a count [skip] of the characters of the last
    match still to be consumed, so the recursion is structural.

    The theorems: [format_remark] equals a character-wise definition
    [continue_lines]; replacing the marker back by a line break recovers the
    cell text; the length grows by 12 per line break; every line break of
    the result begins a continuation marker. *)

From S2P Require Import Prelude.

(** ** Definitions *)

(** [s.starts_with(p)]. *)
Definition starts_with (s p : string) : bool := String.prefix p s.

(** The scan of [str::replace] for a non-empty pattern. *)
Fixpoint replace_go (pat to : string) (skip : nat) (s : string) : string :=
  match s with
  | String.EmptyString => String.EmptyString
  | String.String c rest =>
      match skip with
      | S k => replace_go pat to k rest
      | O =>
          if String.prefix pat s
          then to ⊕ replace_go pat to (String.length pat - 1) rest
          else String.String c (replace_go pat to 0 rest)
      end
  end.

(** With the empty pattern, Rust's [replace] matches at every character
    boundary, the start and the end included. *)
Fixpoint interleave (to s : string) : string :=
  match s with
  | String.EmptyString => to
  | String.String c rest => to ⊕ String.String c (interleave to rest)
  end.

(** [s.replace(pat, to)]. *)
Definition str_replace (pat to s : string) : string :=
  match pat with
  | String.EmptyString => interleave to s
  | _ => replace_go pat to 0 s
  end.

(** The continuation written after each line break of a remark: a line
    break, eight spaces and the doc-comment marker [/// ]. *)
Definition indent : string := "        /// ".
Definition continuation : string := NL ⊕ indent.

(** Lines 87-89: [row[i].to_string().replace("\n", "\n        /// ")]. *)
Definition format_remark (s : string) : string :=
  str_replace NL continuation s.

(** Reference definition: map every character, a line break to the
    continuation and any other character to itself. *)
Fixpoint continue_lines (s : string) : string :=
  match s with
  | String.EmptyString => String.EmptyString
  | String.String c rest =>
      (if Ascii.ascii_dec c LF then continuation else String.String c String.EmptyString)
        ⊕ continue_lines rest
  end.

(** The number of line breaks of a string. *)
Fixpoint count_lf (s : string) : nat :=
  match s with
  | String.EmptyString => 0
  | String.String c rest => (if Ascii.ascii_dec c LF then 1 else 0) + count_lf rest
  end.

(** ** Lemmas on the scan *)

Section ReplaceLemmas.
Implicit Types pat to s t u : string.

(** Skipping the characters of [u] consumes exactly [u]. *)
Lemma replace_go_skip pat to u t :
  replace_go pat to (String.length u) (u ⊕ t) = replace_go pat to 0 t.
Proof. induction u as [|c u IH]; [done|]. exact IH. Qed.

(** A match of a non-empty pattern is replaced and skipped. *)
Lemma replace_go_match c p to t :
  replace_go (String.String c p) to 0 (String.String c p ⊕ t)
  = to ⊕ replace_go (String.String c p) to 0 t.
Proof.
  rewrite append_cons. cbn [replace_go].
  rewrite <- append_cons, prefix_append. cbn. by rewrite Nat.sub_0_r, replace_go_skip.
Qed.

(** A character that cannot start a match is copied. *)
Lemma replace_go_copy c d p to t :
  c ≠ d →
  replace_go (String.String c p) to 0 (String.String d t)
  = String.String d (replace_go (String.String c p) to 0 t).
Proof. intros Hne. cbn [replace_go]. by rewrite prefix_cons_ne. Qed.
End ReplaceLemmas.

#[export] Hint Rewrite replace_go_match : gen_rw.

Lemma indent_no_lf : count_lf indent = 0.
Proof. reflexivity. Qed.

Lemma length_continuation : String.length continuation = 13.
Proof. reflexivity. Qed.

(** Splitting a string that begins with a text free of line breaks at one
    of its line breaks: the break lies after that text. *)
Lemma split_after_no_lf a b u v :
  count_lf a = 0 → a ⊕ b = u ⊕ NL ⊕ v → ∃ u', u = a ⊕ u' ∧ b = u' ⊕ NL ⊕ v.
Proof.
  revert u. induction a as [|c a IH]; intros u Ha Heq.
  - exists u. done.
  - cbn in Ha. destruct (Ascii.ascii_dec c LF) as [->|Hne]; [done|].
    destruct u as [|d u].
    + cbn in Heq. simplify_eq.
    + rewrite !append_cons in Heq. simplify_eq.
      destruct (IH u) as (u' & -> & ->); [done|done|]. by exists u'.
Qed.

(** ** Theorems *)

(** The scan with the one-character pattern is the character-wise map. *)
Lemma format_remark_charwise s : format_remark s = continue_lines s.
Proof.
  unfold format_remark, str_replace. induction s as [|c s IH]; [done|]. cbn [continue_lines].
  destruct (Ascii.ascii_dec c LF) as [->|Hne].
  - change (String.String LF s) with (NL ⊕ s). by rewrite replace_go_match, IH.
  - rewrite replace_go_copy by congruence. by rewrite IH.
Qed.

(** C31: Round trip: replacing each continuation of a formatted remark back
    by a line break gives the cell text unchanged, so the formatting loses
    no information. *)
Theorem format_remark_roundtrip s : str_replace continuation NL (format_remark s) = s.
Proof.
  rewrite format_remark_charwise.
  change (str_replace continuation NL ?x) with (replace_go (String.String LF indent) NL 0 x).
  induction s as [|c s IH]; [done|]. cbn [continue_lines].
  destruct (Ascii.ascii_dec c LF) as [->|Hne]; cbv iota.
  - change (continuation ⊕ continue_lines s) with
      (String.String LF indent ⊕ continue_lines s).
    rewrite replace_go_match, IH. done.
  - rewrite append_cons, append_nil_l, replace_go_copy by congruence. by rewrite IH.
Qed.

(** C32: Bounds: the formatted remark is longer than the cell text by
    exactly twelve characters per line break. *)
Theorem format_remark_length s :
  String.length (format_remark s) = String.length s + 12 * count_lf s.
Proof.
  rewrite format_remark_charwise.
  induction s as [|c s IH]; [done|]. cbn [continue_lines count_lf].
  rewrite length_append, IH. destruct (Ascii.ascii_dec c LF); cbv iota;
    [rewrite length_continuation|]; cbn; lia.
Qed.

(** C33: No raw line break: every line break in a formatted remark is
    followed by the eight-space doc-comment marker [/// ], so a multi-line
    remark renders as continued doc-comment lines. *)
Theorem format_remark_lf_continued s u v :
  format_remark s = u ⊕ NL ⊕ v → starts_with v indent = true.
Proof.
  rewrite format_remark_charwise. revert u.
  induction s as [|c s IH]; intros u Heq.
  - destruct u; cbn in Heq; discriminate.
  - cbn [continue_lines] in Heq. destruct (Ascii.ascii_dec c LF) as [->|Hne].
    + cbv iota in Heq.
      change (continuation ⊕ ?t) with (String.String LF (indent ⊕ t)) in Heq.
      destruct u as [|d u].
      * change ("" ⊕ NL ⊕ v) with (String.String LF v) in Heq.
        simplify_eq. apply prefix_append.
      * rewrite append_cons in Heq. injection Heq as _ Heq.
        destruct (split_after_no_lf _ _ _ _ indent_no_lf Heq) as (u' & _ & Hs).
        eauto.
    + cbv iota in Heq. destruct u as [|d u]; rewrite append_cons, append_nil_l in Heq.
      * change ("" ⊕ NL ⊕ v) with (String.String LF v) in Heq. simplify_eq.
      * rewrite append_cons in Heq. injection Heq as _ Heq. eauto.
Qed.

(** Witness of C33 on a two-line remark. *)
Lemma format_remark_lf_continued_witness :
  format_remark "line one
line two" = "line one" ⊕ NL ⊕ "        /// line two"
  ∧ starts_with "        /// line two" indent = true.
Proof.
  split; [vm_compute; reflexivity|].
  apply (format_remark_lf_continued "line one
line two" "line one"). vm_compute. reflexivity.
Defined.

(** C30: The program's remark formatting (Rust's [replace] scan with the
    pattern ["\n"]) equals the character-wise reference: every line break
    becomes the continuation, every other character is kept. *)
Theorem format_remark_continue_lines s : format_remark s = continue_lines s.
Proof. apply format_remark_charwise. Qed.
