(* ===== verification/Sheet.v ===== *)
(** * Sheet: the worksheet data and the header matching (SheetExtractor)

    The program reads the workbook through calamine.  A cell is calamine's
    [Data] enum, here [Data] with one constructor per variant; its text is
    calamine's [Display] implementation, [cell_to_string], which the program
    calls as [to_string()] on lines 80 and 88.  The float, date and error
    variants are kept as their displayed text: the program only ever uses a
    cell through its text, and formatting an [f64] is calamine's business.

    A [Range] is the list of its rows; calamine's ranges are rectangular,
    which [rectangular] states and which the bounds theorems of [Projector]
    assume.  [range_headers] is calamine's [Range::headers] (the first row,
    as text), [Workbook] is the list of named sheets of an xlsx file and
    [worksheet_range] looks a sheet up by name.

    [header_cells] is lines 63-73 of [src/src/code.rs]: the positions of the
    header row whose text is one of the job's declared header names. *)

From Stdlib Require Import ZArith.
From stdpp Require Import pretty.
From S2P Require Import Prelude.

(** ** Cells *)

(** calamine's [Data]: [Int(i64)], [Float(f64)], [String(String)],
    [Bool(bool)], [DateTime], [Error] and [Empty]. *)
Inductive Data : Type :=
  | DInt (i : Z)
  | DFloat (shown : string)
  | DString (s : string)
  | DBool (b : bool)
  | DDateTime (shown : string)
  | DError (shown : string)
  | DEmpty.

#[export] Instance Data_inhabited : Inhabited Data := populate DEmpty.

#[export] Instance Data_eq_dec : EqDecision Data.
Proof. solve_decision. Defined.

(** [impl Display for Data]: integers in decimal, booleans as [true] and
    [false], the empty cell as the empty string. *)
Definition cell_to_string (d : Data) : string :=
  match d with
  | DInt i => pretty i
  | DFloat shown => shown
  | DString s => s
  | DBool b => if b then "true" else "false"
  | DDateTime shown => shown
  | DError shown => shown
  | DEmpty => ""
  end.

(** ** Ranges and workbooks *)

(** A worksheet's used range, row by row. *)
Abbreviation Range := (list (list Data)).

(** calamine's ranges have rows of one width. *)
Definition rectangular (r : Range) : bool :=
  match r with
  | [] => true
  | row :: _ => forallb (λ row', bool_decide (length row' = length row)) r
  end.

(** [Range::headers]: the first row as text, [None] for an empty range. *)
Definition range_headers (r : Range) : option (list string) :=
  match r with
  | [] => None
  | row :: _ => Some (cell_to_string <$> row)
  end.

(** An xlsx workbook: its worksheets by name, in file order. *)
Abbreviation Workbook := (list (string * Range)).

(** [Xlsx::worksheet_range(name)]: the first sheet of that name. *)
Fixpoint worksheet_range (wb : Workbook) (name : string) : option Range :=
  match wb with
  | [] => None
  | (n, r) :: rest => if decide (n = name) then Some r else worksheet_range rest name
  end.

(** ** Header matching (lines 63-73) *)

(** [input.headers.contains(x)]. *)
Definition declared (headers : list string) (x : string) : bool :=
  bool_decide (x ∈ headers).

(** The loop [for row in range.headers() { header_cells = ...; break; }]
    runs at most once, on the header row; without a header row
    [header_cells] stays empty. *)
Definition header_cells (headers : list string) (r : Range) : list nat :=
  match range_headers r with
  | None => []
  | Some row => positions (declared headers) row
  end.

(** ** Lemmas *)

Section HeaderMatch.
Context (headers : list string).

Lemma header_cells_nil : header_cells headers [] = [].
Proof. reflexivity. Qed.

Lemma header_cells_cons row rest :
  header_cells headers (row :: rest) = positions (declared headers) (cell_to_string <$> row).
Proof. reflexivity. Qed.

(** Each matched position is a column of the header row. *)
Lemma header_cells_lt row rest i :
  i ∈ header_cells headers (row :: rest) → i < length row.
Proof. rewrite header_cells_cons. intros Hi%positions_lt. by rewrite length_fmap in Hi. Qed.
End HeaderMatch.

(** A matched position is a cell of the header row whose text is declared. *)
Lemma elem_of_header_cells headers r i :
  i ∈ header_cells headers r ↔
  ∃ row rest d, r = row :: rest ∧ row !! i = Some d ∧ cell_to_string d ∈ headers.
Proof.
  destruct r as [|row rest].
  - rewrite header_cells_nil. split; [by intros ?%elem_of_nil|]. by intros (? & ? & ? & ? & _).
  - rewrite header_cells_cons, elem_of_positions. split.
    + intros (x & Hx & Hd). apply list_lookup_fmap_Some in Hx as (d & -> & Hd').
      exists row, rest, d. split; [done|]. split; [done|]. by apply bool_decide_eq_true in Hd.
    + intros (row' & rest' & d & [= <- <-] & Hd & Hin). exists (cell_to_string d).
      rewrite list_lookup_fmap, Hd. split; [done|]. by apply bool_decide_eq_true.
Qed.

(** The matched positions are strictly increasing. *)
Lemma header_cells_increasing headers r : StronglySorted lt (header_cells headers r).
Proof. destruct r; [constructor|]. apply positions_sorted. Qed.

(** ** Theorems *)

(** C16: Only the set of declared names matters: two jobs declaring the
    same names, in any order and with any repetition, match the same
    positions. *)
Theorem header_cells_set_semantics h1 h2 r :
  (∀ x, x ∈ h1 ↔ x ∈ h2) → header_cells h1 r = header_cells h2 r.
Proof.
  intros Hh. destruct r; [done|]. rewrite !header_cells_cons.
  apply positions_ext. intros x. unfold declared. apply bool_decide_ext, Hh.
Qed.

(** Witness of C16: reversing the declared names changes nothing. *)
Lemma header_cells_set_semantics_witness :
  (∀ x, x ∈ ["remark"; "type"; "##var"] ↔ x ∈ ["##var"; "type"; "remark"])
  ∧ header_cells ["remark"; "type"; "##var"] [[DString "##var"; DString "type"; DString "remark"]]
    = [0; 1; 2].
Proof.
  split; [intros x; set_solver|].
  rewrite (header_cells_set_semantics _ ["##var"; "type"; "remark"]).
  - vm_compute. reflexivity.
  - intros x. set_solver.
Defined.
