(* ===== verification/Projector.v ===== *)
(** * Projector: the row walk of [handle_input] (RowProjector)

    Lines 75-102 of [src/src/code.rs].  For each row of the range, header
    row included ([range.rows()] yields every row), the inner loop walks the
    matched positions [header_cells] in order:
    - at position 0 it reads [row[0]]; if its text starts with ["##"] the
      loop [break]s, otherwise it pushes the literal ["string"] and
      [continue]s;
    - at any other position [i] it pushes the text of [row[i]] with every
      line break replaced by the doc-comment continuation.
    A row that collected nothing is skipped; the others are pushed to
    [code_tuples] in row order.  Finally each collected row [x] becomes the
    triple [(x[0], x[1], x[2])].

    Rust's indexing panics when out of range; the model returns [None] for
    that panic, both for [row[i]] ([collect_row], [code_tuples]) and for
    [x[k]] ([tuples_vec]).  The accumulators are Rust's [Vec]s, [push] being
    [acc ++ [x]].

    The theorems: the behaviour of [collect_row] on each branch, the
    equivalence of the imperative outer loop with a filter over the rows,
    the sentinel rule, the header row's fate, arity errors, the absence of
    index panics on rectangular ranges, and blank rows kept by the row
    walk. *)

From S2P Require Import Prelude RustStr Sheet.

(** ** Definitions *)

(** The marker of a legend row, tested on line 80. *)
Definition sentinel : string := "##".

(** The text pushed for a non-zero matched column (lines 87-89). *)
Definition remark_text (d : Data) : string := format_remark (cell_to_string d).

(** The inner loop of lines 77-91 over the matched positions, with the
    vector [collect_row] as accumulator.  [None] is the panic of an
    out-of-range [row[i]]. *)
Fixpoint collect_loop (row : list Data) (hcs : list nat) (collect_row : list string)
    : option (list string) :=
  match hcs with
  | [] => Some collect_row
  | header_index :: rest =>
      if decide (header_index = 0) then
        match row !! 0 with
        | None => None
        | Some d0 =>
            if starts_with (cell_to_string d0) sentinel then Some collect_row
            else collect_loop row rest (collect_row ++ ["string"])
        end
      else
        match row !! header_index with
        | None => None
        | Some d => collect_loop row rest (collect_row ++ [remark_text d])
        end
  end.

(** [let mut collect_row = vec![]; for header_index in header_cells.iter() {...}] *)
Definition collect_row (row : list Data) (hcs : list nat) : option (list string) :=
  collect_loop row hcs [].

(** The outer loop of lines 76-97 with the vector [code_tuples] as
    accumulator: rows that collected nothing are skipped ([continue]). *)
Fixpoint rows_loop (hcs : list nat) (rows : Range) (code_tuples : list (list string))
    : option (list (list string)) :=
  match rows with
  | [] => Some code_tuples
  | row :: rest =>
      match collect_row row hcs with
      | None => None
      | Some cr =>
          if decide (length cr = 0) then rows_loop hcs rest code_tuples
          else rows_loop hcs rest (code_tuples ++ [cr])
      end
  end.

(** [let mut code_tuples = vec![]; for row in range.rows() {...}] *)
Definition code_tuples (hcs : list nat) (r : Range) : option (list (list string)) :=
  rows_loop hcs r [].

(** The closure of line 101: [(x[0], x[1], x[2])], panicking when [x] has
    fewer than three values. *)
Definition to_tuple (x : list string) : option (string * string * string) :=
  a ← x !! 0; b ← x !! 1; c ← x !! 2; Some (a, b, c).

(** Lines 99-102: [code_tuples.iter().map(...).collect()]. *)
Definition tuples_vec (code_tuples : list (list string))
    : option (list (string * string * string)) :=
  mapM to_tuple code_tuples.

(** The whole projection of one sheet for one job: lines 63-102. *)
Definition project (headers : list string) (r : Range)
    : option (list (string * string * string)) :=
  ct ← code_tuples (header_cells headers r) r; tuples_vec ct.

(** A legend row: the text of its cell 0 starts with the sentinel (the
    test of line 80). *)
Definition is_legend (row : list Data) : bool :=
  match row !! 0 with
  | Some d0 => starts_with (cell_to_string d0) sentinel
  | None => false
  end.

(** ** Lemmas on the inner loop *)

(** The row's value at every matched position is in range. *)
Definition in_range (row : list Data) (hcs : list nat) : Prop :=
  Forall (λ i, i < length row) hcs.

(** The texts of the cells at positions [ps], each formatted as a remark. *)
Definition texts (row : list Data) (ps : list nat) : list string :=
  (λ i, remark_text (row !!! i)) <$> ps.

Section CollectLoop.
Context (row : list Data).

(** Without position 0 the loop formats every matched cell. *)
Lemma collect_loop_nonzero hcs acc :
  Forall (λ i, i ≠ 0) hcs → in_range row hcs →
  collect_loop row hcs acc = Some (acc ++ texts row hcs).
Proof.
  unfold in_range, texts. revert acc. induction hcs as [|i hcs IH]; intros acc Hnz Hr.
  - by rewrite app_nil_r.
  - apply Forall_cons in Hnz as [Hi Hnz]. apply Forall_cons in Hr as [Hir Hr].
    cbn. rewrite decide_False by done. rewrite (list_lookup_lookup_total_lt _ _ Hir).
    rewrite IH by done. by rewrite <- app_assoc.
Qed.

(** The sentinel stops the loop at position 0 with what it had collected. *)
Lemma collect_loop_legend hcs acc :
  is_legend row = true → collect_loop row (0 :: hcs) acc = Some acc.
Proof.
  unfold is_legend. intros Hl. cbn. destruct (row !! 0) as [d0|]; [|done]. by rewrite Hl.
Qed.

(** A data row at position 0 gets the literal ["string"]. *)
Lemma collect_loop_data hcs acc d0 :
  row !! 0 = Some d0 → starts_with (cell_to_string d0) sentinel = false →
  collect_loop row (0 :: hcs) acc = collect_loop row hcs (acc ++ ["string"]).
Proof. intros H0 Hs. cbn. by rewrite H0, Hs. Qed.
End CollectLoop.

(** In a strictly increasing list, position 0 can only come first. *)
Lemma sorted_tail_nonzero hcs : StronglySorted lt (0 :: hcs) → Forall (λ i, i ≠ 0) hcs.
Proof.
  intros Hs. apply StronglySorted_inv in Hs as [_ Hlt].
  eapply Forall_impl; [exact Hlt|]. cbn. lia.
Qed.

Lemma sorted_nonzero i hcs : StronglySorted lt (i :: hcs) → i ≠ 0 → Forall (λ j, j ≠ 0) (i :: hcs).
Proof.
  intros Hs Hi. apply StronglySorted_inv in Hs as [_ Hlt]. constructor; [done|].
  eapply Forall_impl; [exact Hlt|]. cbn. lia.
Qed.

#[export] Hint Resolve sorted_tail_nonzero sorted_nonzero : gen.

(** In a strictly increasing list containing 0, 0 comes first. *)
Lemma sorted_zero_head hcs : StronglySorted lt hcs → 0 ∈ hcs → ∃ rest, hcs = 0 :: rest.
Proof.
  intros Hs Hin. destruct hcs as [|i rest]; [by apply elem_of_nil in Hin|].
  apply elem_of_cons in Hin as [->|Hin]; [eauto|].
  apply StronglySorted_inv in Hs as [_ Hlt]. rewrite Forall_forall in Hlt.
  specialize (Hlt 0 Hin). lia.
Qed.

(** Without position 0 every matched position pushes one value. *)
Lemma collect_loop_length_nonzero row hcs acc cr :
  Forall (λ i, i ≠ 0) hcs → collect_loop row hcs acc = Some cr →
  length cr = length acc + length hcs.
Proof.
  revert acc. induction hcs as [|i hcs IH]; intros acc Hnz Hc; cbn in Hc.
  - simplify_eq. cbn. lia.
  - apply Forall_cons in Hnz as [Hi Hnz]. rewrite decide_False in Hc by done.
    destruct (row !! i); [|done]. apply IH in Hc; [|done].
    rewrite length_app in Hc. cbn in *. lia.
Qed.

(** ** Lemmas on the outer loop *)

Section RowsLoop.
Context (hcs : list nat).

Lemma rows_loop_acc rows acc :
  rows_loop hcs rows acc = (λ l, acc ++ l) <$> rows_loop hcs rows [].
Proof.
  revert acc. induction rows as [|row rows IH]; intros acc; cbn; [by rewrite app_nil_r|].
  destruct (collect_row row hcs) as [cr|]; [|done]. case_decide; [apply IH|].
  rewrite IH, (IH [_]), <- option_fmap_compose. apply option_fmap_ext.
  intros l. cbn. by rewrite <- app_assoc.
Qed.

(** A row that collects nothing leaves the loop's result unchanged. *)
Lemma rows_loop_skip r1 row r2 acc :
  collect_row row hcs = Some [] →
  rows_loop hcs (r1 ++ row :: r2) acc = rows_loop hcs (r1 ++ r2) acc.
Proof.
  intros Hrow. revert acc. induction r1 as [|row1 r1 IH]; intros acc; cbn.
  - by rewrite Hrow.
  - destruct (collect_row row1 hcs); [|done]. case_decide; apply IH.
Qed.
End RowsLoop.

(** ** Theorems on one row *)

Section CollectRow.
Context (row : list Data) (hcs : list nat) (Hsorted : StronglySorted lt hcs).

(** Functional behaviour of the inner loop on every branch, for
    matched positions in increasing order and a row that has a cell at
    each of them: when column 0 is matched, a legend row collects nothing
    and any other row collects the literal ["string"] followed by the
    formatted texts of the other matched cells; when column 0 is not
    matched, the formatted texts of all matched cells. *)
Lemma collect_row_closed :
  in_range row hcs →
  collect_row row hcs =
    Some (match hcs with
          | 0 :: rest => if is_legend row then [] else "string" :: texts row rest
          | _ => texts row hcs
          end).
Proof.
  intros Hr. unfold collect_row. destruct hcs as [|[|i] rest]; [done| |].
  - pose proof (sorted_tail_nonzero _ Hsorted) as Hnz.
    destruct (is_legend row) eqn:Hl; [by apply collect_loop_legend|].
    unfold in_range in Hr. apply Forall_cons in Hr as [H0 Hr].
    rewrite (collect_loop_data _ _ _ (row !!! 0)); [|by apply list_lookup_lookup_total_lt|].
    + by rewrite collect_loop_nonzero.
    + unfold is_legend in Hl. by rewrite (list_lookup_lookup_total_lt _ _ H0) in Hl.
  - apply collect_loop_nonzero; [by apply sorted_nonzero|done].
Qed.

(** Arity invariant: a row collects either nothing or exactly one
    value per matched position; no other count is possible. *)
Lemma collect_row_arity cr :
  collect_row row hcs = Some cr → cr = [] ∨ length cr = length hcs.
Proof.
  unfold collect_row. destruct hcs as [|[|i] rest]; intros Hc.
  - cbn in Hc. simplify_eq. by left.
  - pose proof (sorted_tail_nonzero _ Hsorted) as Hnz.
    destruct (row !! 0) as [d0|] eqn:H0; [|cbn in Hc; by rewrite H0 in Hc].
    destruct (starts_with (cell_to_string d0) sentinel) eqn:Hs.
    + rewrite collect_loop_legend in Hc by (unfold is_legend; by rewrite H0).
      simplify_eq. by left.
    + rewrite (collect_loop_data _ _ _ d0 H0 Hs) in Hc. right.
      apply collect_loop_length_nonzero in Hc; [|done]. cbn in *. lia.
  - right. apply collect_loop_length_nonzero in Hc; [cbn in *; lia|].
    by apply sorted_nonzero.
Qed.

(** The sentinel rule: when column 0 is matched, a row whose cell 0
    starts with ["##"] collects nothing, whatever its other cells hold
    (none of them is read). *)
Lemma collect_row_on_legend :
  0 ∈ hcs → is_legend row = true → collect_row row hcs = Some [].
Proof.
  intros Hin Hl. destruct (sorted_zero_head _ Hsorted Hin) as [rest ->].
  by apply collect_loop_legend.
Qed.
End CollectRow.

(** ** Theorems on the row walk *)

(** Equivalence of the imperative outer loop with a reference
    pipeline: the collected rows are those of [collect_row] on every row of
    the range, in row order, with the empty ones removed; a panic on any row
    is a panic of the whole walk. *)
Lemma code_tuples_as_filter hcs r :
  code_tuples hcs r = filter (λ cr, length cr ≠ 0) <$> mapM (λ row, collect_row row hcs) r.
Proof.
  unfold code_tuples. induction r as [|row r IH]; [done|]. cbn.
  destruct (collect_row row hcs) as [cr|]; [cbn|done].
  rewrite (rows_loop_acc _ _ [cr]), IH.
  destruct (mapM (λ row, collect_row row hcs) r) as [crs|]; cbn; [|by case_decide].
  by case_decide; case_decide.
Qed.

(** C10: Legend rows are dropped: when column 0 is matched, removing a row
    whose cell 0 starts with ["##"] from anywhere in the range does not
    change the collected rows. *)
Theorem code_tuples_skip_legend hcs r1 row r2 :
  StronglySorted lt hcs → 0 ∈ hcs → is_legend row = true →
  code_tuples hcs (r1 ++ row :: r2) = code_tuples hcs (r1 ++ r2).
Proof.
  intros Hs Hin Hl. apply rows_loop_skip. by apply collect_row_on_legend.
Qed.

(** One step of the walk: the next row's collection is kept unless empty. *)
Lemma code_tuples_cons hcs row rows cr :
  collect_row row hcs = Some cr →
  code_tuples hcs (row :: rows) =
    if decide (length cr = 0) then code_tuples hcs rows else cons cr <$> code_tuples hcs rows.
Proof.
  intros Hc. unfold code_tuples at 1. cbn. rewrite Hc.
  case_decide; [done|]. by rewrite rows_loop_acc.
Qed.

(** Every row of a rectangular range has the header row's width. *)
Lemma rectangular_length hdr rest row :
  rectangular (hdr :: rest) = true → row ∈ hdr :: rest → length row = length hdr.
Proof.
  unfold rectangular. intros Hrect Hin. rewrite forallb_forall in Hrect.
  apply list_elem_of_In, Hrect in Hin. by apply bool_decide_eq_true in Hin.
Qed.

(** On a rectangular range every row has a cell at every matched position. *)
Lemma rectangular_in_range headers r row :
  rectangular r = true → row ∈ r → in_range row (header_cells headers r).
Proof.
  destruct r as [|hdr rest]; [by intros _ ?%elem_of_nil|]. intros Hrect Hin.
  apply Forall_forall. intros i Hi%header_cells_lt. by rewrite (rectangular_length hdr rest row).
Qed.

#[export] Hint Resolve rectangular_in_range header_cells_increasing : gen.

(** Bounds: on a rectangular range (as calamine produces) the walk
    never indexes a row out of range, so lines 75-97 never panic,
    whatever the job's headers. *)
Lemma code_tuples_rect_Some headers r :
  rectangular r = true → is_Some (code_tuples (header_cells headers r) r).
Proof.
  intros Hrect. rewrite code_tuples_as_filter. apply fmap_is_Some, mapM_is_Some_2.
  apply Forall_forall. intros row Hin. cbn.
  rewrite collect_row_closed; eauto with gen.
Qed.

(** Each collected row comes from a row of the range and is not empty. *)
Lemma code_tuples_elem hcs r ct x :
  code_tuples hcs r = Some ct → x ∈ ct →
  length x ≠ 0 ∧ ∃ row, row ∈ r ∧ collect_row row hcs = Some x.
Proof.
  rewrite code_tuples_as_filter. intros (crs & Hm & ->)%fmap_Some Hx.
  apply list_elem_of_filter in Hx as [Hlen Hx]. split; [done|].
  apply mapM_Some_1 in Hm. apply list_elem_of_lookup in Hx as [k Hk].
  destruct (Forall2_lookup_r _ _ _ _ _ Hm Hk) as (row & Hrow & Hc).
  exists row. split; [by eapply list_elem_of_lookup_2|done].
Qed.

(** Arity invariant of the walk: every collected row holds exactly one
    value per matched column. *)
Lemma code_tuples_each_arity hcs r ct :
  StronglySorted lt hcs → code_tuples hcs r = Some ct →
  Forall (λ x, length x = length hcs) ct.
Proof.
  intros Hs Hct. apply Forall_forall. intros x Hx.
  destruct (code_tuples_elem _ _ _ _ Hct Hx) as (Hlen & row & _ & Hc).
  destruct (collect_row_arity row hcs Hs x Hc) as [->|]; [done|done].
Qed.

Lemma to_tuple_None x : to_tuple x = None ↔ length x < 3.
Proof. destruct x as [|a [|b [|c extra]]]; cbn; split; intros; done || lia. Qed.

(** Building the triples panics exactly when a collected row is short. *)
Lemma tuples_vec_None_iff ct : tuples_vec ct = None ↔ ∃ x, x ∈ ct ∧ length x < 3.
Proof.
  unfold tuples_vec. rewrite mapM_None, Exists_exists.
  setoid_rewrite to_tuple_None. naive_solver.
Qed.

(** C18: Error behaviour of lines 99-102: building the triples panics
    exactly when some collected row has fewer than three values; a row
    with more than three values is silently truncated to its first three. *)
Theorem tuples_vec_spec ct :
  (tuples_vec ct = None ↔ ∃ x, x ∈ ct ∧ length x < 3) ∧
  ∀ a b c extra, to_tuple (a :: b :: c :: extra) = Some (a, b, c).
Proof.
  split; [apply tuples_vec_None_iff|done].
Qed.

(** C17: A job whose headers match exactly three columns of a rectangular
    sheet never panics while projecting it: neither the row indexing nor
    the triple indexing goes out of range. *)
Theorem project_three_columns_safe headers r :
  rectangular r = true → length (header_cells headers r) = 3 →
  is_Some (project headers r).
Proof.
  intros Hrect H3. unfold project.
  destruct (code_tuples_rect_Some headers r Hrect) as [ct Hct]. rewrite Hct. cbn.
  apply mapM_is_Some_2. pose proof (code_tuples_each_arity _ _ _ (header_cells_increasing _ _) Hct) as Ha.
  eapply Forall_impl; [exact Ha|]. intros x Hx. cbn.
  destruct (to_tuple x) eqn:Ht; [done|]. apply to_tuple_None in Ht. cbn in Hx. lia.
Qed.

(** Witness of C17 on the spec's example sheet. *)
Lemma project_three_columns_safe_witness :
  is_Some (project ["##var"; "type"; "remark"]
    [[DString "##var"; DString "type"; DString "remark"];
     [DString "id"; DString "int"; DString "the identifier"]]).
Proof. apply project_three_columns_safe; vm_compute; reflexivity. Defined.

(** C19: When fewer than three columns are matched, any surviving row makes
    the projection panic (the spec asks for a validation error naming the
    row instead). *)
Theorem project_short_panics headers r ct :
  length (header_cells headers r) < 3 →
  code_tuples (header_cells headers r) r = Some ct → ct ≠ [] →
  project headers r = None.
Proof.
  intros Hlt Hct Hne. unfold project. rewrite Hct. cbn.
  apply tuples_vec_None_iff. destruct ct as [|x ct]; [done|].
  exists x. split; [by left|].
  pose proof (code_tuples_each_arity _ _ _ (header_cells_increasing _ _) Hct) as Ha.
  apply Forall_cons in Ha as [-> _]. done.
Qed.

(** Witness of C19: a sheet with only the name and type columns. *)
Lemma project_short_panics_witness :
  project ["##var"; "type"; "remark"]
    [[DString "##var"; DString "type"]; [DString "id"; DString "int"]] = None.
Proof.
  apply (project_short_panics _ _ [["string"; "int"]]); vm_compute; try reflexivity; done.
Defined.

(** C20: The header row is walked like any data row ([range.rows()]
    starts at the header).  When its cell 0 is one of the declared names
    and does not start with ["##"], it is emitted as a field itself: the
    literal ["string"] followed by the other matched header names. *)
Theorem header_row_emitted headers hdr rest d0 :
  hdr !! 0 = Some d0 → cell_to_string d0 ∈ headers →
  starts_with (cell_to_string d0) sentinel = false →
  let hcs := header_cells headers (hdr :: rest) in
  code_tuples hcs (hdr :: rest) = (λ ct, ("string" :: texts hdr (tail hcs)) :: ct) <$> code_tuples hcs rest.
Proof.
  intros H0 Hd Hs hcs.
  assert (0 ∈ hcs) as Hin by (apply elem_of_header_cells; eauto 10).
  destruct (sorted_zero_head hcs (header_cells_increasing _ _) Hin) as [tl Htl].
  assert (in_range hdr hcs) as Hr.
  { apply Forall_forall. intros i Hi. by eapply header_cells_lt. }
  unfold code_tuples at 1. cbn [rows_loop].
  rewrite (collect_row_closed hdr hcs (header_cells_increasing _ _) Hr), Htl.
  unfold is_legend. rewrite H0, Hs. cbn [tail]. rewrite decide_False by done.
  by rewrite rows_loop_acc.
Qed.

(** Witness of C20: a header row [name, type, remark] with the same job
    headers yields the field [("string", "type", "remark")]. *)
Lemma header_row_emitted_witness :
  code_tuples [0; 1; 2] [[DString "name"; DString "type"; DString "remark"]]
  = Some [["string"; "type"; "remark"]].
Proof.
  change [0; 1; 2] with (header_cells ["name"; "type"; "remark"]
    [[DString "name"; DString "type"; DString "remark"]]).
  rewrite (header_row_emitted _ _ [] (DString "name")); [| reflexivity | cbn; set_solver | reflexivity].
  vm_compute. reflexivity.
Defined.

(** Every cell of a blank row is empty, at any position. *)
Lemma blank_lookup_total n i : replicate n DEmpty !!! i = DEmpty.
Proof.
  rewrite list_lookup_total_alt. destruct (replicate n DEmpty !! i) eqn:E; [|done].
  by apply lookup_replicate in E as [-> _].
Qed.

Lemma texts_blank n ps : texts (replicate n DEmpty) ps = replicate (length ps) "".
Proof.
  unfold texts. induction ps as [|i ps IH]; [done|].
  rewrite fmap_cons, IH, blank_lookup_total. done.
Qed.

(** A row of empty cells under matched columns starting at 0 collects the
    literal ["string"] and one empty text per other matched column. *)
Lemma collect_row_blank hcs n :
  StronglySorted lt (0 :: hcs) → in_range (replicate n DEmpty) (0 :: hcs) →
  collect_row (replicate n DEmpty) (0 :: hcs) = Some ("string" :: replicate (length hcs) "").
Proof.
  intros Hs Hr. rewrite collect_row_closed by done.
  unfold is_legend. apply Forall_cons in Hr as [H0 _]. rewrite length_replicate in H0.
  rewrite lookup_replicate_2 by done. cbn. by rewrite texts_blank.
Qed.

(** C29: Blank rows are not dropped: when column 0 is matched, the walk
    over the rows (lines 78-96) keeps a row of empty cells as the tuple
    ["string"] followed by one empty text per other matched column, in
    front of the tuples of the rows after it, so it becomes a field with
    empty type and remark (the spec says rows that collect nothing are the
    blank ones). *)
Theorem blank_row_kept hcs n rows :
  StronglySorted lt (0 :: hcs) → in_range (replicate n DEmpty) (0 :: hcs) →
  code_tuples (0 :: hcs) (replicate n DEmpty :: rows) =
    cons ("string" :: replicate (length hcs) "") <$> code_tuples (0 :: hcs) rows.
Proof.
  intros Hs Hr. rewrite (code_tuples_cons _ _ _ _ (collect_row_blank _ _ Hs Hr)).
  by rewrite decide_False.
Qed.

(** Witness of C29: a blank row of three cells under three matched
    columns, followed by one data row. *)
Lemma blank_row_kept_witness :
  code_tuples [0; 1; 2] [replicate 3 DEmpty; [DString "id"; DString "int"; DString "x"]]
  = Some [["string"; ""; ""]; ["string"; "int"; "x"]].
Proof.
  rewrite (blank_row_kept [1; 2] 3).
  - vm_compute. reflexivity.
  - repeat constructor; lia.
  - repeat constructor; cbn; lia.
Defined.

(** ** Claims on the row walk *)

(** C1: Functional behaviour of the inner loop on every branch, for
    matched positions in increasing order and a row that has a cell at each
    of them: when column 0 is matched, a legend row collects nothing and any
    other row collects the literal ["string"] followed by the formatted
    texts of the other matched cells; when column 0 is not matched, the
    formatted texts of all matched cells. *)
Theorem collect_row_spec row hcs :
  StronglySorted lt hcs → in_range row hcs →
  collect_row row hcs =
    Some (match hcs with
          | 0 :: rest => if is_legend row then [] else "string" :: texts row rest
          | _ => texts row hcs
          end).
Proof. intros Hs. by apply collect_row_closed. Qed.

(** Witness of C1 on the data row of the spec's example. *)
Lemma collect_row_spec_witness :
  collect_row [DString "id"; DString "int"; DString "the identifier"] [0; 1; 2]
  = Some ["string"; "int"; "the identifier"].
Proof.
  rewrite (collect_row_spec [DString "id"; DString "int"; DString "the identifier"] [0; 1; 2]
    ltac:(repeat constructor) ltac:(repeat constructor)).
  vm_compute. reflexivity.
Defined.

(** C9: The sentinel rule: when column 0 is matched, a row whose cell 0
    starts with ["##"] collects nothing, whatever its other cells hold. *)
Theorem collect_row_legend row hcs :
  StronglySorted lt hcs → 0 ∈ hcs → is_legend row = true → collect_row row hcs = Some [].
Proof. intros Hs. by apply collect_row_on_legend. Qed.

(** Witness of C9: the legend row [##legend] of the spec. *)
Lemma collect_row_legend_witness :
  collect_row [DString "##legend"; DString "x"; DString "y"] [0; 1; 2] = Some [].
Proof.
  apply collect_row_legend; [repeat constructor | by left | reflexivity].
Defined.

(** C2: Equivalence of the imperative outer loop with a reference
    pipeline: the collected rows are those of [collect_row] on every row of
    the range, in row order, with the empty ones removed; a panic on any row
    is a panic of the whole walk. *)
Theorem code_tuples_filter hcs r :
  code_tuples hcs r = filter (λ cr, length cr ≠ 0) <$> mapM (λ row, collect_row row hcs) r.
Proof. apply code_tuples_as_filter. Qed.

(** C12: Bounds: on a rectangular range (as calamine produces) the walk
    never indexes a row out of range, so lines 75-97 never panic, whatever
    the job's headers. *)
Theorem code_tuples_rectangular_safe headers r :
  rectangular r = true → is_Some (code_tuples (header_cells headers r) r).
Proof. apply code_tuples_rect_Some. Qed.

(** Witness of C12 on a two-row sheet. *)
Lemma code_tuples_rectangular_safe_witness :
  is_Some (code_tuples (header_cells ["type"] [[DString "a"; DString "type"]; [DInt 3; DBool true]])
    [[DString "a"; DString "type"]; [DInt 3; DBool true]]).
Proof. apply code_tuples_rectangular_safe. reflexivity. Defined.

(** C11: Arity invariant of the walk: every collected row holds exactly one
    value per matched column. *)
Theorem code_tuples_arity hcs r ct :
  StronglySorted lt hcs → code_tuples hcs r = Some ct →
  Forall (λ x, length x = length hcs) ct.
Proof. apply code_tuples_each_arity. Qed.

(** Witness of C11 on the spec's example sheet. *)
Lemma code_tuples_arity_witness :
  Forall (λ x, length x = 3) [["string"; "int"; "the identifier"]].
Proof.
  apply (code_tuples_arity [0; 1; 2]
    [[DString "##var"; DString "type"; DString "remark"];
     [DString "id"; DString "int"; DString "the identifier"]]);
    [repeat constructor | vm_compute; reflexivity].
Defined.

(** Witness of C10: the legend row in the middle of a sheet is dropped. *)
Lemma code_tuples_skip_legend_witness :
  code_tuples [0; 1; 2]
    ([[DString "a"; DString "b"; DString "c"]] ++ [DString "##legend"; DEmpty; DEmpty] :: [])
  = Some [["string"; "b"; "c"]].
Proof.
  rewrite code_tuples_skip_legend; [| repeat constructor | by left | reflexivity].
  vm_compute. reflexivity.
Defined.
