(* ===== verification/RoleSpec.v ===== *)
(** * RoleSpec: the role-binding specification of the projection

    Section 9 of the spec asks for the job's three declared names to be
    bound to their roles (name, type, remark) by an explicit map from role
    to column, resolved once from the header row, and for the data rows
    after the header row to be projected through that map.  [role_project]
    states that contract: [col_of] resolves a declared name to the first
    column whose header text it is, the header row is never a data row,
    a row whose name cell starts with ["##"] is skipped, and every other
    row gives the field [("string", type text, remark text)].

    The code binds roles by position instead ([Projector.project]).  The
    refinement theorem shows that it computes [role_project] on the sheet
    layout it was written for: the name column first, marked with ["##"],
    then the type column before the remark column, each declared name in
    one header cell.  The hazard theorem shows that on the same layout
    with the remark column before the type column the code computes the
    role-bound projection with type and remark exchanged in every field. *)

From S2P Require Import Prelude RustStr Sheet Projector.

(** ** The specification *)

(** The first column whose header text is [h]. *)
Definition col_of (h : string) (hdr : list Data) : option nat :=
  fst <$> list_find (λ d, cell_to_string d = h) hdr.

(** Is the cell at column [c] a legend marker? *)
Definition legend_at (c : nat) (row : list Data) : bool :=
  match row !! c with
  | Some d => starts_with (cell_to_string d) sentinel
  | None => false
  end.

(** One data row through the role map. *)
Definition role_row (cn ct cr : nat) (row : list Data) : option (string * string * string) :=
  if legend_at cn row then None
  else Some ("string", remark_text (row !!! ct), remark_text (row !!! cr)).

(** The role-bound projection of a sheet for the declared names
    [name; type; remark]: [None] when a role cannot be resolved. *)
Definition role_project (headers : list string) (r : Range)
    : option (list (string * string * string)) :=
  match headers, r with
  | [hn; ht; hr], hdr :: rows =>
      cn ← col_of hn hdr; ct ← col_of ht hdr; cr ← col_of hr hdr;
      Some (omap (role_row cn ct cr) rows)
  | _, _ => None
  end.

(** The sheet layout the code was written for, as a test: three distinct
    declared names, the first marked with ["##"], matched by exactly three
    header cells carrying them in declaration order, the first at column 0,
    over a rectangular range. *)
Definition layout_ok (headers : list string) (r : Range) : bool :=
  match headers, r with
  | [hn; ht; hr], hdr :: _ =>
      rectangular r && bool_decide (NoDup headers) && starts_with hn sentinel &&
      bool_decide ((λ c, cell_to_string <$> hdr !! c) <$> header_cells headers r
                   = [Some hn; Some ht; Some hr]) &&
      bool_decide (head (header_cells headers r) = Some 0)
  | _, _ => false
  end.

(** A field with its type and remark exchanged. *)
Definition swap_roles (f : string * string * string) : string * string * string :=
  let '(k, ty, remark) := f in (k, remark, ty).

(** ** Lemmas *)

Lemma col_of_Some h hdr j :
  col_of h hdr = Some j ↔
  (∃ d, hdr !! j = Some d ∧ cell_to_string d = h) ∧
  ∀ k d, hdr !! k = Some d → k < j → cell_to_string d ≠ h.
Proof.
  unfold col_of. rewrite fmap_Some. split.
  - intros ([j' d] & Hf & ->). apply list_find_Some in Hf as (Hd & Hh & Hbefore).
    split; [eauto|]. intros k d' Hk Hlt. by apply (Hbefore k d').
  - intros ((d & Hd & Hh) & Hbefore). exists (j, d). split; [|done].
    apply list_find_Some. split; [done|]. split; [done|]. intros k d' Hk Hlt. eauto.
Qed.

(** At column 0 the legend test is the code's test of line 80. *)
Lemma role_row_zero t m row :
  role_row 0 t m row =
    if is_legend row then None else Some ("string", remark_text (row !!! t), remark_text (row !!! m)).
Proof. reflexivity. Qed.

(** The walk over data rows with the matched columns [0; t; m] computes the
    role-bound projection with the roles at those columns. *)
Lemma walk_three t m rows :
  0 < t → t < m → (∀ row, row ∈ rows → m < length row) →
  (ct ← code_tuples [0; t; m] rows; tuples_vec ct) = Some (omap (role_row 0 t m) rows).
Proof.
  intros Ht Htm. induction rows as [|row rows IH]; intros Hlen; [done|].
  assert (in_range row [0; t; m]) as Hr.
  { specialize (Hlen row ltac:(by left)). repeat constructor; lia. }
  assert (StronglySorted lt [0; t; m]) as Hs by (repeat constructor; lia).
  rewrite (code_tuples_cons _ _ _ _ (collect_row_closed row _ Hs Hr)).
  cbn [omap list_omap]. rewrite role_row_zero. destruct (is_legend row).
  - rewrite decide_True by done. apply IH. intros r' Hr'. apply Hlen. by right.
  - rewrite decide_False by done.
    assert (∀ r', r' ∈ rows → m < length r') as Hl' by (intros; apply Hlen; by right).
    specialize (IH Hl'). unfold tuples_vec in *.
    destruct (code_tuples [0; t; m] rows) as [ct|]; cbn in IH |- *; [|done].
    rewrite IH. done.
Qed.

(** ** Refinement *)

Section Layout.
(** The sheet layout the code was written for. *)
Context (hn ht hr : string) (hdr : list Data) (rows : Range) (t m : nat).
Hypothesis Hrect : rectangular (hdr :: rows) = true.
Hypothesis Hcells : header_cells [hn; ht; hr] (hdr :: rows) = [0; t; m].
Hypothesis Hn : cell_to_string <$> hdr !! 0 = Some hn.
Hypothesis Ht : cell_to_string <$> hdr !! t = Some ht.
Hypothesis Hr : cell_to_string <$> hdr !! m = Some hr.
Hypothesis Hnodup : NoDup [hn; ht; hr].
Hypothesis Hmark : starts_with hn sentinel = true.

Lemma layout_order : 0 < t ∧ t < m.
Proof.
  pose proof (header_cells_increasing [hn; ht; hr] (hdr :: rows)) as Hs.
  rewrite Hcells in Hs. apply StronglySorted_inv in Hs as [Hs H0].
  apply StronglySorted_inv in Hs as [_ Ht']. inversion H0; inversion Ht'; subst. lia.
Qed.

(** A header cell whose text is declared is one of the three columns. *)
Lemma layout_declared k d :
  hdr !! k = Some d → cell_to_string d ∈ [hn; ht; hr] → k = 0 ∨ k = t ∨ k = m.
Proof.
  intros Hk Hd. assert (k ∈ header_cells [hn; ht; hr] (hdr :: rows)) as Hin
    by (apply elem_of_header_cells; eauto 10).
  rewrite Hcells in Hin. set_solver.
Qed.

Lemma layout_cols :
  col_of hn hdr = Some 0 ∧ col_of ht hdr = Some t ∧ col_of hr hdr = Some m.
Proof.
  pose proof layout_order as [Ht0 Htm].
  pose proof Hnodup as Hnd. apply NoDup_cons in Hnd as [Hn1 Hnd]. apply NoDup_cons in Hnd as [Ht1 _].
  destruct (proj1 (fmap_Some _ _ _) Hn) as (d0 & H0 & E0).
  destruct (proj1 (fmap_Some _ _ _) Ht) as (dt & Hdt & Et).
  destruct (proj1 (fmap_Some _ _ _) Hr) as (dr & Hdr & Er).
  split; [|split]; apply col_of_Some; (split; [eauto|]); intros k d Hk Hlt Heq; [lia| |].
  - assert (cell_to_string d ∈ [hn; ht; hr]) as Hd by set_solver.
    destruct (layout_declared k d Hk Hd) as [Hk0|[Hkt|Hkm]]; [subst k|lia|lia].
    simplify_eq. set_solver.
  - assert (cell_to_string d ∈ [hn; ht; hr]) as Hd by set_solver.
    destruct (layout_declared k d Hk Hd) as [Hk0|[Hkt|Hkm]]; [subst k|subst k|lia];
      simplify_eq; set_solver.
Qed.

Lemma project_layout :
  project [hn; ht; hr] (hdr :: rows) = role_project [hn; ht; hr] (hdr :: rows).
Proof.
  pose proof layout_order as [Ht0 Htm]. destruct layout_cols as (Hc0 & Hct & Hcm).
  unfold project, role_project. rewrite Hc0, Hct, Hcm, Hcells. cbn [mbind option_bind].
  assert (is_legend hdr = true) as Hl.
  { unfold is_legend. destruct (proj1 (fmap_Some _ _ _) Hn) as (d0 & -> & <-). done. }
  rewrite (code_tuples_cons _ _ _ []).
  - rewrite decide_True by done. apply walk_three; [done|done|].
    intros row Hrow. pose proof (rectangular_length _ _ row Hrect ltac:(by right)) as ->.
    apply (header_cells_lt [hn; ht; hr] hdr rows). rewrite Hcells. set_solver.
  - apply collect_row_on_legend; [repeat constructor; lia|set_solver|done].
Qed.
End Layout.

(** The test [layout_ok] gives the hypotheses of the layout. *)
Lemma layout_ok_project headers r :
  layout_ok headers r = true → project headers r = role_project headers r.
Proof.
  destruct headers as [|hn [|ht [|hr [|? ?]]]]; try done. destruct r as [|hdr rows]; [done|].
  unfold layout_ok. rewrite !andb_true_iff, !bool_decide_eq_true.
  intros ((((Hrect & Hnd) & Hmark) & Htexts) & Hhead).
  destruct (header_cells _ _) as [|c0 [|t [|m [|? ?]]]] eqn:Hc; try done.
  cbn in Hhead, Htexts. injection Hhead as ->. injection Htexts as H0 Ht Hr.
  by eapply project_layout.
Qed.

(** ** The positional binding under exchanged columns *)

Lemma role_row_swap cn ct cr row : role_row cn cr ct row = swap_roles <$> role_row cn ct cr row.
Proof. unfold role_row. by destruct (legend_at cn row). Qed.

Lemma omap_role_row_swap cn ct cr (rows : list (list Data)) :
  omap (role_row cn cr ct) rows = swap_roles <$> omap (role_row cn ct cr) rows.
Proof.
  induction rows as [|row rows IH]; [done|]. cbn [omap list_omap].
  rewrite role_row_swap. by destruct (role_row cn ct cr row); cbn; rewrite IH.
Qed.

(** Declaring type and remark in the other order exchanges them in the
    role-bound projection. *)
Lemma role_project_swap hn ht hr r :
  role_project [hn; hr; ht] r = fmap (M:=list) swap_roles <$> role_project [hn; ht; hr] r.
Proof.
  destruct r as [|hdr rows]; [done|]. cbn.
  destruct (col_of hn hdr), (col_of ht hdr), (col_of hr hdr); cbn; try done.
  by rewrite omap_role_row_swap.
Qed.

(** The matched positions ignore the order of the declared names, and so
    does the code's projection. *)
Lemma header_cells_swap hn ht hr r : header_cells [hn; ht; hr] r = header_cells [hn; hr; ht] r.
Proof.
  destruct r; [done|]. rewrite !header_cells_cons.
  apply positions_ext. intros x. unfold declared. apply bool_decide_ext. set_solver.
Qed.

Lemma project_swap hn ht hr r : project [hn; ht; hr] r = project [hn; hr; ht] r.
Proof. unfold project. by rewrite header_cells_swap. Qed.

(** ** Claims *)

(** C3: Refinement: on the sheet layout the code was written for (the
    name column first and marked with ["##"], each of the three distinct
    declared names in exactly one header cell, the type column before the
    remark column, a rectangular range), the positional projection of the
    code computes the role-bound projection of the spec. *)
Theorem project_refines_role_spec hn ht hr hdr rows t m :
  rectangular (hdr :: rows) = true →
  header_cells [hn; ht; hr] (hdr :: rows) = [0; t; m] →
  cell_to_string <$> hdr !! 0 = Some hn →
  cell_to_string <$> hdr !! t = Some ht →
  cell_to_string <$> hdr !! m = Some hr →
  NoDup [hn; ht; hr] → starts_with hn sentinel = true →
  project [hn; ht; hr] (hdr :: rows) = role_project [hn; ht; hr] (hdr :: rows).
Proof. intros. eapply project_layout; eauto. Qed.

(** Witness of C3 on the spec's example sheet. *)
Lemma project_refines_role_spec_witness :
  project ["##var"; "type"; "remark"]
    [[DString "##var"; DString "type"; DString "remark"];
     [DString "id"; DString "int"; DString "the identifier"]]
  = role_project ["##var"; "type"; "remark"]
    [[DString "##var"; DString "type"; DString "remark"];
     [DString "id"; DString "int"; DString "the identifier"]].
Proof.
  apply (project_refines_role_spec _ _ _ _ _ 1 2); try reflexivity.
  repeat constructor; set_solver.
Defined.

(** C23: The positional binding hazard of section 9: on the layout of
    [project_refines_role_spec] but with the remark column before the type
    column (the name column
    first and marked with ["##"], each of the three distinct declared
    names in exactly one header cell, a rectangular range), the code emits
    in every field the remark text as the type and the type text as the
    remark: its projection is the role-bound projection with the two
    exchanged. *)
Theorem column_order_hazard hn ht hr hdr rows t m :
  rectangular (hdr :: rows) = true →
  header_cells [hn; ht; hr] (hdr :: rows) = [0; t; m] →
  cell_to_string <$> hdr !! 0 = Some hn →
  cell_to_string <$> hdr !! t = Some hr →
  cell_to_string <$> hdr !! m = Some ht →
  NoDup [hn; ht; hr] → starts_with hn sentinel = true →
  project [hn; ht; hr] (hdr :: rows) = fmap (M:=list) swap_roles <$> role_project [hn; ht; hr] (hdr :: rows).
Proof.
  intros Hrect Hc H0 Ht Hr Hnd Hmark.
  rewrite project_swap, <-role_project_swap. rewrite header_cells_swap in Hc.
  eapply project_layout; eauto.
  assert ([hn; hr; ht] ≡ₚ [hn; ht; hr]) as -> by (constructor; constructor). done.
Qed.

(** Witness of C23 on the spec's example sheet with the type and remark
    columns exchanged. *)
Lemma column_order_hazard_witness :
  project ["##var"; "type"; "remark"]
    [[DString "##var"; DString "remark"; DString "type"];
     [DString "id"; DString "the identifier"; DString "int"]]
  = fmap (M:=list) swap_roles <$> role_project ["##var"; "type"; "remark"]
    [[DString "##var"; DString "remark"; DString "type"];
     [DString "id"; DString "the identifier"; DString "int"]].
Proof.
  apply (column_order_hazard _ _ _ _ _ 1 2); try reflexivity.
  repeat constructor; set_solver.
Defined.
