(* ===== verification/Render.v ===== *)
(** * Render: the template interface (TemplateRenderer)

    [CodeTemplate] (lines 15-21 of [src/src/code.rs]) is an askama template
    over [code.txt] with the fields [namespace], [classname] and [tuples];
    [code_template.render()] (line 117) returns the generated text or an
    askama error.  The template file is not under [src/]: what the program
    relies on is its contract (spec, section 4.4): one field block per
    triple, in the order given, between a head built from the namespace and
    class name and a fixed tail.

    [Template] is that interface as a class: [render] with its failure as
    [None].  [TemplateLaws] states the contract as a law, so the theorems
    about the whole run are proved against any template that keeps it.
    [code_txt] is an instance modelled from the spec: a C# class with one
    documented field per triple; its exact layout is illustrative. *)

From S2P Require Import Prelude.

(** ** The interface *)

Class Template := {
  render : string → string → list (string * string * string) → option string
}.

(** Concatenation of a list of strings. *)
Fixpoint concat_str (l : list string) : string :=
  match l with
  | [] => ""
  | s :: l => s ⊕ concat_str l
  end.

(** The contract: a rendered text is a head, one block per triple in order,
    and a tail. *)
Class TemplateLaws (T : Template) := {
  tpl_head : string → string → string;
  tpl_field : string * string * string → string;
  tpl_tail : string;
  render_shape ns cls ts out :
    render ns cls ts = Some out →
    out = tpl_head ns cls ⊕ concat_str (tpl_field <$> ts) ⊕ tpl_tail
}.

(** ** The code.txt instance *)

Definition code_txt_head (ns cls : string) : string :=
  "namespace " ⊕ ns ⊕ NL ⊕ "{" ⊕ NL ⊕ "    public class " ⊕ cls ⊕ NL ⊕ "    {" ⊕ NL.

(** One field: the remark as a doc comment, then the declaration. *)
Definition code_txt_field (t : string * string * string) : string :=
  let '(name, ty, remark) := t in
  "        /// <summary>" ⊕ NL ⊕ "        /// " ⊕ remark ⊕ NL ⊕ "        /// </summary>" ⊕ NL
  ⊕ "        public " ⊕ name ⊕ " " ⊕ ty ⊕ ";" ⊕ NL.

Definition code_txt_tail : string := "    }" ⊕ NL ⊕ "}" ⊕ NL.

#[export] Instance code_txt : Template := {|
  render ns cls ts := Some (code_txt_head ns cls ⊕ concat_str (code_txt_field <$> ts) ⊕ code_txt_tail)
|}.

#[export] Program Instance code_txt_laws : TemplateLaws code_txt := {|
  tpl_head := code_txt_head;
  tpl_field := code_txt_field;
  tpl_tail := code_txt_tail
|}.
Next Obligation. intros ns cls ts out [= <-]. done. Qed.

(** ** Lemmas *)

Lemma concat_str_app l1 l2 : concat_str (l1 ++ l2) = concat_str l1 ⊕ concat_str l2.
Proof. induction l1 as [|s l1 IH]; [done|]. cbn. by rewrite IH, append_assoc. Qed.

#[export] Hint Rewrite concat_str_app : gen_rw.
