(* ===== verification/FileSys.v ===== *)
(** * FileSys: the file system the generator reads and writes

    The program touches the file system through [fs::read_to_string]
    (line 46), [open_workbook] (line 57), [Path::exists] (line 112),
    [fs::remove_file] (line 113), [File::create] (line 116) and
    [write_all] (line 117).  The model keeps the files as a [gmap] from
    paths to contents: a text file, or an xlsx workbook as calamine would
    parse it.  A set [denied] of paths stands for the paths whose removal or
    creation the operating system refuses (permissions, a directory in the
    way); every operation on such a path fails.

    Reading a workbook as text, or text as a workbook, fails, as reading a
    binary xlsx file with [read_to_string] (invalid UTF-8) or opening a
    text file with [open_workbook] (not a zip archive) does.  Partial
    writes (disk full) are not modelled: [write_all] always succeeds on a
    file that [File::create] has just opened. *)

From stdpp Require Import gmap.
From S2P Require Import Prelude Sheet.

(** ** State *)

Inductive File : Type :=
  | Text (contents : string)
  | Book (wb : Workbook).

Record FS : Type := mkFS {
  files : gmap string File;
  denied : gset string
}.

(** ** Operations *)

(** [Path::new(p).exists()]. *)
Definition path_exists (fs : FS) (p : string) : bool :=
  bool_decide (is_Some (files fs !! p)).

(** [fs::read_to_string(p)]. *)
Definition read_to_string (fs : FS) (p : string) : option string :=
  match files fs !! p with
  | Some (Text s) => Some s
  | _ => None
  end.

(** [open_workbook::<Xlsx<_>>(p)]. *)
Definition open_workbook (fs : FS) (p : string) : option Workbook :=
  match files fs !! p with
  | Some (Book wb) => Some wb
  | _ => None
  end.

(** [fs::remove_file(p)]: fails on a missing or refused path. *)
Definition remove_file (fs : FS) (p : string) : option FS :=
  if bool_decide (p ∈ denied fs) then None
  else if path_exists fs p then Some (mkFS (delete p (files fs)) (denied fs))
  else None.

(** [File::create(p)]: creates the file, or truncates an existing one. *)
Definition file_create (fs : FS) (p : string) : option FS :=
  if bool_decide (p ∈ denied fs) then None
  else Some (mkFS (<[p := Text ""]> (files fs)) (denied fs)).

(** [file.write_all(bytes)] on the handle of [p]: appends to the file. *)
Definition write_all (fs : FS) (p : string) (s : string) : FS :=
  match files fs !! p with
  | Some (Text old) => mkFS (<[p := Text (old ⊕ s)]> (files fs)) (denied fs)
  | _ => mkFS (<[p := Text s]> (files fs)) (denied fs)
  end.

(** ** Lemmas *)

Section FSLemmas.
Implicit Types (fs : FS) (p q : string).

Lemma file_create_Some fs p fs' :
  file_create fs p = Some fs' ↔ p ∉ denied fs ∧ fs' = mkFS (<[p := Text ""]> (files fs)) (denied fs).
Proof. unfold file_create. case_bool_decide; naive_solver. Qed.

Lemma remove_file_Some fs p fs' :
  remove_file fs p = Some fs' ↔
  p ∉ denied fs ∧ is_Some (files fs !! p) ∧ fs' = mkFS (delete p (files fs)) (denied fs).
Proof.
  unfold remove_file, path_exists. case_bool_decide; [naive_solver|].
  case_bool_decide; naive_solver.
Qed.

Lemma write_all_created fs p s :
  files fs !! p = Some (Text "") → write_all fs p s = mkFS (<[p := Text s]> (files fs)) (denied fs).
Proof. intros Hp. unfold write_all. by rewrite Hp. Qed.
(** Each operation changes its own path only. *)
Lemma remove_file_other fs p fs' q :
  remove_file fs p = Some fs' → q ≠ p → files fs' !! q = files fs !! q.
Proof. intros (_ & _ & ->)%remove_file_Some Hq. cbn. by rewrite lookup_delete_ne. Qed.

Lemma file_create_other fs p fs' q :
  file_create fs p = Some fs' → q ≠ p → files fs' !! q = files fs !! q.
Proof. intros [_ ->]%file_create_Some Hq. cbn. by rewrite lookup_insert_ne. Qed.

Lemma write_all_other fs p s q : q ≠ p → files (write_all fs p s) !! q = files fs !! q.
Proof. intros Hq. unfold write_all. case_match; try case_match; cbn; by rewrite lookup_insert_ne. Qed.
End FSLemmas.
