(* ===== verification/Config.v ===== *)
(** * Config: the job file [inputs.json] and serde's derived decoders

    [struct Input] (lines 23-31) derives [Deserialize] and [Serialize];
    [struct Code] (lines 6-13) derives [Deserialize] with the field
    renames [#[serde(rename = "##var")]] and [#[serde(rename = "type")]].
    [load_input_from_json] (line 49) decodes the text of [inputs.json] as a
    [Vec<Input>] with [serde_json::from_str].

    The text parser of serde_json is the library's and stays a parameter
    ([parse_json] in [serde_inputs]); what the program's own declarations
    determine is the decoding of a JSON value, written here as the code
    that [#[derive(Deserialize)]] generates for these structs:
    - a struct is read from a JSON object ([visit_map]): each key naming a
      field is decoded at the field's type, a second occurrence of a field
      is [DuplicateField] (checked before the value is read), unknown keys
      are skipped, and at the end a missing field is [MissingField] unless
      it has an [Option] type, which makes it [None];
    - a struct is also read from a JSON array of its fields in declaration
      order ([visit_seq]): too few elements is [InvalidLength], too many is
      serde_json's [TrailingCharacters];
    - [String] accepts only a JSON string, [Vec<T>] only an array,
      [Option<T>] maps [null] to [None] and anything else through [T].
    Field values are kept as [val]s of a small type language [ty] and
    converted to the Rocq records at the end, as the derived visitor
    stores each field in an [Option] slot before building the struct.

    [input_to_json] is the derived [Serialize]: an object with the fields
    in declaration order. *)

From Stdlib Require Import ZArith.
From S2P Require Import Prelude.

(** ** JSON values *)

Inductive JValue : Type :=
  | JNull
  | JBool (b : bool)
  | JNumber (n : Z)
  | JString (s : string)
  | JArray (l : list JValue)
  | JObject (kvs : list (string * JValue)).

(** The errors of serde's derived visitors and of serde_json. *)
Inductive DeError : Type :=
  | InvalidType
  | InvalidLength (n : nat)
  | TrailingCharacters
  | DuplicateField (f : string)
  | MissingField (f : string).

(** [Result<A, serde_json::Error>], with stdpp's monad notations. *)
Inductive Res (A : Type) : Type :=
  | Ok (a : A)
  | Err (e : DeError).
Arguments Ok {A} a.
Arguments Err {A} e.

#[export] Instance Res_ret : MRet Res := λ A a, Ok a.
#[export] Instance Res_bind : MBind Res :=
  λ A B f m, match m with Ok a => f a | Err e => Err e end.
#[export] Instance Res_fmap : FMap Res :=
  λ A B f m, match m with Ok a => Ok (f a) | Err e => Err e end.

(** [.ok()]: the error is dropped. *)
Definition res_ok {A} (r : Res A) : option A :=
  match r with Ok a => Some a | Err _ => None end.

(** ** Field types and decoded values *)

(** The Rust types of the fields: [String], [Vec<T>], [Option<T>]. *)
Inductive ty : Type :=
  | TStr
  | TVec (t : ty)
  | TOpt (t : ty).

Inductive val : Type :=
  | VStr (s : string)
  | VVec (l : list val)
  | VOpt (o : option val).

(** [<T as Deserialize>::deserialize] on a [serde_json::Value]. *)
Fixpoint decode_ty (t : ty) (j : JValue) : Res val :=
  match t with
  | TStr => match j with JString s => Ok (VStr s) | _ => Err InvalidType end
  | TVec t' => match j with JArray l => VVec <$> mapM (decode_ty t') l | _ => Err InvalidType end
  | TOpt t' => match j with JNull => Ok (VOpt None) | _ => (λ v, VOpt (Some v)) <$> decode_ty t' j end
  end.

(** A struct's fields: the serialized name (after [rename]) and the type. *)
Abbreviation Schema := (list (string * ty)).

(** The derived [__FieldVisitor::visit_str]: the index of a field name. *)
Definition field_index (fs : Schema) (k : string) : option (nat * ty) :=
  (λ it, (it.1, it.2.2)) <$> list_find (λ f, f.1 = k) fs.

(** The derived [visit_map]: one [Option] slot per field. *)
Fixpoint visit_map (fs : Schema) (slots : list (option val)) (kvs : list (string * JValue))
    : Res (list (option val)) :=
  match kvs with
  | [] => Ok slots
  | (k, v) :: rest =>
      match field_index fs k with
      | None => visit_map fs slots rest
      | Some (i, t) =>
          match slots !! i with
          | Some (Some _) => Err (DuplicateField k)
          | _ => x ← decode_ty t v; visit_map fs (<[i := Some x]> slots) rest
          end
      end
  end.

(** After the map: [missing_field], which is [None] for an [Option]. *)
Definition finish_field (f : string * ty) (slot : option val) : Res val :=
  match slot with
  | Some v => Ok v
  | None => match f.2 with TOpt _ => Ok (VOpt None) | _ => Err (MissingField f.1) end
  end.

Definition finish (fs : Schema) (slots : list (option val)) : Res (list val) :=
  mapM (λ fv, finish_field fv.1 fv.2) (zip fs slots).

(** The derived [visit_seq], then serde_json's check for trailing elements;
    [n] counts the elements read. *)
Fixpoint visit_seq (fs : Schema) (n : nat) (l : list JValue) : Res (list val) :=
  match fs, l with
  | [], [] => Ok []
  | [], _ :: _ => Err TrailingCharacters
  | _ :: _, [] => Err (InvalidLength n)
  | (_, t) :: fs', j :: l' => v ← decode_ty t j; vs ← visit_seq fs' (S n) l'; Ok (v :: vs)
  end.

(** [deserialize_struct]: an object or an array. *)
Definition decode_struct (fs : Schema) (j : JValue) : Res (list val) :=
  match j with
  | JObject kvs => slots ← visit_map fs (replicate (length fs) None) kvs; finish fs slots
  | JArray l => visit_seq fs 0 l
  | _ => Err InvalidType
  end.

(** ** The structs *)

(** [struct Input] (lines 23-31). *)
Record Input : Type := mkInput {
  headers : list string;
  work_sheet_name : string;
  class_name : string;
  in_path : string;
  out_path : string;
  namespace : string
}.

(** [struct Code] (lines 6-13). *)
Record Code : Type := mkCode {
  var : option string;
  type_name : option string;
  remark : option string
}.

(** The fields as serde sees them, in declaration order. *)
Definition input_schema : Schema :=
  [("headers", TVec TStr); ("work_sheet_name", TStr); ("class_name", TStr);
   ("in_path", TStr); ("out_path", TStr); ("namespace", TStr)].

(** [Code]'s fields under their [rename]s. *)
Definition code_schema : Schema :=
  [("##var", TOpt TStr); ("type", TOpt TStr); ("remark", TOpt TStr)].

Definition str_of (v : val) : option string :=
  match v with VStr s => Some s | _ => None end.

Definition opt_str_of (v : val) : option (option string) :=
  match v with
  | VOpt None => Some None
  | VOpt (Some (VStr s)) => Some (Some s)
  | _ => None
  end.

(** The derived visitor's final [Ok(Input { headers: __field0, ... })]. *)
Definition input_of_vals (vs : list val) : option Input :=
  match vs with
  | [VVec hs; VStr w; VStr c; VStr i; VStr o; VStr n] =>
      hs' ← mapM str_of hs; Some (mkInput hs' w c i o n)
  | _ => None
  end.

Definition code_of_vals (vs : list val) : option Code :=
  match vs with
  | [a; b; c] => a' ← opt_str_of a; b' ← opt_str_of b; c' ← opt_str_of c; Some (mkCode a' b' c')
  | _ => None
  end.

Definition of_option {A} (o : option A) : Res A :=
  match o with Some a => Ok a | None => Err InvalidType end.

(** [<Input as Deserialize>::deserialize]. *)
Definition decode_input (j : JValue) : Res Input :=
  vs ← decode_struct input_schema j; of_option (input_of_vals vs).

(** [<Code as Deserialize>::deserialize]. *)
Definition decode_code (j : JValue) : Res Code :=
  vs ← decode_struct code_schema j; of_option (code_of_vals vs).

(** [Vec<Input>]: a JSON array of inputs. *)
Definition decode_inputs (j : JValue) : Res (list Input) :=
  match j with JArray l => mapM decode_input l | _ => Err InvalidType end.

(** [<Input as Serialize>::serialize]. *)
Definition input_to_json (i : Input) : JValue :=
  JObject [("headers", JArray (JString <$> headers i));
           ("work_sheet_name", JString (work_sheet_name i));
           ("class_name", JString (class_name i));
           ("in_path", JString (in_path i));
           ("out_path", JString (out_path i));
           ("namespace", JString (namespace i))].

(** Line 49, [serde_json::from_str::<Vec<Input>>], given serde_json's text
    parser; [None] is the [Err] that [?] returns. *)
Definition serde_inputs (parse_json : string → option JValue) (s : string) : option (list Input) :=
  j ← parse_json s; res_ok (decode_inputs j).

(** ** Sample data *)

(** A sample job and the key/value pairs of its serialized object. *)
Definition sample_input : Input :=
  mkInput ["##var"; "type"; "remark"] "Sheet1" "Item" "item.xlsx" "Item.cs" "Game".

Definition sample_fields : list (string * JValue) :=
  match input_to_json sample_input with JObject kvs => kvs | _ => [] end.

(** ** Lemmas on [Res] *)

Section ResLemmas.
Context {A B : Type} (f : A → Res B).

Lemma mapM_Res_Ok l vs : mapM f l = Ok vs ↔ Forall2 (λ x v, f x = Ok v) l vs.
Proof.
  revert vs. induction l as [|x l IH]; intros vs; cbn.
  - split; [intros [= <-]; constructor|]. by intros ->%Forall2_nil_inv_l.
  - destruct (f x) as [v|e] eqn:Hf; cbn.
    + destruct (mapM f l) as [ws|e] eqn:Hl; cbn.
      * split; [intros [= <-]; constructor; [done|by apply IH]|].
        intros (v' & ws' & Hv & Hws & ->)%Forall2_cons_inv_l.
        apply IH in Hws. cbv [mret Res_ret]. congruence.
      * split; [done|]. intros (v' & ws' & _ & Hws & _)%Forall2_cons_inv_l.
        by apply IH in Hws.
    + split; [done|]. intros (v' & ws' & Hv & _)%Forall2_cons_inv_l. congruence.
Qed.

End ResLemmas.

Lemma fmap_Res_Ok {A B} (g : A → B) (m : Res A) b : g <$> m = Ok b ↔ ∃ a, m = Ok a ∧ b = g a.
Proof. destruct m; cbn; split; naive_solver. Qed.

Lemma bind_Res_Ok {A B} (k : A → Res B) (m : Res A) b : (m ≫= k) = Ok b ↔ ∃ a, m = Ok a ∧ k a = Ok b.
Proof. destruct m; cbn; split; naive_solver. Qed.

#[export] Hint Rewrite @fmap_Res_Ok @bind_Res_Ok : gen_rw.

(** ** Struct decoding lemmas *)

Lemma field_index_Some fs k i t :
  field_index fs k = Some (i, t) → fs !! i = Some (k, t).
Proof.
  unfold field_index. intros ([i' [k' t']] & Hf & [= -> ->])%fmap_Some.
  apply list_find_Some in Hf as (Hi & Hk & _). cbn in *. by subst.
Qed.

Lemma field_index_is_Some fs k : is_Some (field_index fs k) ↔ k ∈ fs.*1.
Proof.
  unfold field_index. rewrite fmap_is_Some, list_elem_of_fmap. split.
  - intros [[i [k' t]] (Hi & Hk & _)%list_find_Some]. cbn in Hk. subst k'.
    exists (k, t). split; [done|]. by eapply list_elem_of_lookup_2.
  - intros (f & -> & Hf). by apply (list_find_elem_of _ _ f).
Qed.

Lemma visit_map_length fs slots kvs r : visit_map fs slots kvs = Ok r → length r = length slots.
Proof.
  revert slots. induction kvs as [|[k v] kvs IH]; intros slots; cbn; [by intros [= <-]|].
  destruct (field_index fs k) as [[i t]|]; [|apply IH].
  destruct (slots !! i) as [[x|]|]; [done| |];
    intros (x & _ & Hr)%bind_Res_Ok; apply IH in Hr; by rewrite Hr, length_insert.
Qed.

(** A field index is within the schema, hence within the slots. *)
Lemma field_index_slot fs (slots : list (option val)) k i t :
  length slots = length fs → field_index fs k = Some (i, t) → ∃ o, slots !! i = Some o.
Proof.
  intros Hlen Hi%field_index_Some. apply lookup_lt_is_Some_2.
  rewrite Hlen. by eapply lookup_lt_Some.
Qed.

(** Once a field's slot is filled, a later key of that field is refused. *)
Lemma visit_map_seen fs slots kvs r k i t v :
  visit_map fs slots kvs = Ok r → field_index fs k = Some (i, t) →
  slots !! i = Some (Some v) → k ∉ kvs.*1.
Proof.
  revert slots v. induction kvs as [|[k' v'] kvs IH]; intros slots v Hr Hk Hs;
    [cbn; set_solver|].
  cbn in Hr |- *. intros [<-|Hin]%elem_of_cons; [by rewrite Hk, Hs in Hr|].
  destruct (field_index fs k') as [[i' t']|]; [|by eapply IH].
  destruct (slots !! i') as [[x|]|]; [done| |];
    apply bind_Res_Ok in Hr as (x & _ & Hr);
    (assert (∃ y, <[i' := Some x]> slots !! i = Some (Some y)) as [y Hy]
       by (rewrite list_lookup_insert; case_decide; eauto));
    by eapply IH.
Qed.

(** A filled slot was filled before, or by a key of that field. *)
Lemma visit_map_filled fs slots kvs r i v :
  visit_map fs slots kvs = Ok r → r !! i = Some (Some v) →
  (∃ v', slots !! i = Some (Some v')) ∨ ∃ k t, k ∈ kvs.*1 ∧ field_index fs k = Some (i, t).
Proof.
  revert slots. induction kvs as [|[k w] kvs IH]; intros slots Hr Hv; cbn in Hr.
  { injection Hr as ->. eauto. }
  destruct (field_index fs k) as [[i' t']|] eqn:Hk.
  - destruct (slots !! i') as [[x|]|]; [done| |];
      apply bind_Res_Ok in Hr as (x & _ & Hr); destruct (IH _ Hr Hv) as [[v' Hv']|(k' & t & Hin & Hk')];
      try (right; exists k', t; split; [by right|done]);
      rewrite list_lookup_insert in Hv'; case_decide as Hd;
      solve [destruct Hd as [-> _]; right; exists k, t'; split; [by left|done] | left; eauto].
  - destruct (IH _ Hr Hv) as [?|(k' & t & Hin & Hk')]; [by left|].
    right. exists k', t. split; [by right|done].
Qed.

(** After a successful [finish], every field without an [Option] type was
    filled. *)
Lemma finish_required fs slots vs i f t :
  length slots = length fs → finish fs slots = Ok vs → fs !! i = Some (f, t) →
  (∀ t', t ≠ TOpt t') → ∃ v, slots !! i = Some (Some v).
Proof.
  unfold finish. intros Hlen Hf%mapM_Res_Ok Hi Ht.
  destruct (lookup_lt_is_Some_2 slots i) as [o Ho].
  { rewrite Hlen. by eapply lookup_lt_Some. }
  assert (zip fs slots !! i = Some ((f, t), o)) as Hz by (rewrite lookup_zip_with, Hi, Ho; done).
  destruct (Forall2_lookup_l _ _ _ _ _ Hf Hz) as (w & _ & Hw).
  destruct o as [v|]; [eauto|]. cbn in Hw. destruct t; try done. by destruct (Ht t).
Qed.

(** Unknown keys are skipped. *)
Lemma visit_map_filter fs slots kvs :
  visit_map fs slots kvs = visit_map fs slots (filter (λ kv, kv.1 ∈ fs.*1) kvs).
Proof.
  revert slots. induction kvs as [|[k v] kvs IH]; intros slots; [done|].
  rewrite filter_cons. cbn [visit_map fst].
  destruct (field_index fs k) as [[i t]|] eqn:Hk.
  - rewrite decide_True by (apply field_index_is_Some; by rewrite Hk).
    cbn [visit_map]. rewrite Hk. destruct (slots !! i) as [[x|]|]; [done| |];
      cbn; destruct (decode_ty t v); cbn; auto.
  - rewrite decide_False; [apply IH|]. rewrite <-field_index_is_Some, Hk. by intros [? ?].
Qed.

(** Each field of the schema occurs at most once among the keys. *)
Lemma visit_map_nodup fs slots kvs r :
  length slots = length fs → visit_map fs slots kvs = Ok r →
  NoDup (filter (λ k, k ∈ fs.*1) kvs.*1).
Proof.
  revert slots. induction kvs as [|[k v] kvs IH]; intros slots Hlen Hr; [constructor|].
  cbn [visit_map] in Hr. rewrite fmap_cons, filter_cons. cbn [fst]. destruct (field_index fs k) as [[i t]|] eqn:Hk.
  - rewrite decide_True by (apply field_index_is_Some; by rewrite Hk).
    destruct (field_index_slot fs slots k i t Hlen Hk) as [o Ho]. rewrite Ho in Hr.
    destruct o as [x|]; [done|]. apply bind_Res_Ok in Hr as (x & _ & Hr).
    constructor; [|eapply IH; [|exact Hr]; by rewrite length_insert].
    rewrite list_elem_of_filter. intros [_ Hin]. eapply visit_map_seen; [exact Hr|exact Hk| |exact Hin].
    rewrite list_lookup_insert, decide_True; [done|]. split; [done|]. by eapply lookup_lt_Some.
  - rewrite decide_False; [by eapply IH|]. rewrite <-field_index_is_Some, Hk. by intros [? ?].
Qed.

(** The slots of an object start empty: a required field that was decoded
    had its key in the object. *)
Lemma decode_object_required fs kvs vs i f t :
  decode_struct fs (JObject kvs) = Ok vs → fs !! i = Some (f, t) → (∀ t', t ≠ TOpt t') →
  f ∈ kvs.*1.
Proof.
  cbn. intros (slots & Hm & Hf)%bind_Res_Ok Hi Ht.
  assert (length slots = length fs) as Hlen
    by (rewrite (visit_map_length _ _ _ _ Hm); apply length_replicate).
  destruct (finish_required _ _ _ _ _ _ Hlen Hf Hi Ht) as [v Hv].
  destruct (visit_map_filled _ _ _ _ _ _ Hm Hv) as [[v' Hv']|(k & t' & Hin & Hk)].
  - by apply lookup_replicate in Hv' as [? _].
  - apply field_index_Some in Hk. rewrite Hi in Hk. by injection Hk as -> _.
Qed.

Lemma decode_strs hs : mapM (decode_ty TStr) (JString <$> hs) = Ok (VStr <$> hs).
Proof.
  induction hs as [|h hs IH]; [done|]. rewrite !fmap_cons. cbn [mapM].
  rewrite IH. done.
Qed.

Lemma strs_of_strs hs : mapM str_of (VStr <$> hs) = Some hs.
Proof. by apply mapM_fmap_Some. Qed.

(** Finishes a decoding of the six [Input] fields once the [headers]
    value is known to decode. *)
Ltac input_fields H1 H2 :=
  cbv -[decode_ty mapM]; rewrite H1; cbv -[mapM]; cbn;
  lazymatch type of H2 with mapM _ ?vhs = Some ?hs =>
    match goal with |- context [mapM ?g vhs] => replace (mapM g vhs) with (Some hs) end end;
  try done; by rewrite <-H2.

(** An object with the six fields of [Input], in order. *)
Lemma decode_input_object hsj vhs hs w c ip op ns :
  decode_ty (TVec TStr) hsj = Ok (VVec vhs) → mapM str_of vhs = Some hs →
  decode_input (JObject [("headers", hsj); ("work_sheet_name", JString w); ("class_name", JString c);
                         ("in_path", JString ip); ("out_path", JString op); ("namespace", JString ns)])
  = Ok (mkInput hs w c ip op ns).
Proof. intros H1 H2. unfold decode_input. input_fields H1 H2. Qed.

(** An array of the six fields of [Input], in order. *)
Lemma decode_input_array hsj vhs hs w c ip op ns :
  decode_ty (TVec TStr) hsj = Ok (VVec vhs) → mapM str_of vhs = Some hs →
  decode_input (JArray [hsj; JString w; JString c; JString ip; JString op; JString ns])
  = Ok (mkInput hs w c ip op ns).
Proof. intros H1 H2. unfold decode_input. input_fields H1 H2. Qed.

Lemma decode_headers hs : decode_ty (TVec TStr) (JArray (JString <$> hs)) = Ok (VVec (VStr <$> hs)).
Proof. cbn [decode_ty]. by rewrite decode_strs. Qed.

(** The derived [Serialize] output decodes back. *)
Lemma decode_input_to_json i : decode_input (input_to_json i) = Ok i.
Proof.
  destruct i as [hs w c ip op ns].
  assert (input_to_json (mkInput hs w c ip op ns) =
          JObject [("headers", JArray (JString <$> hs)); ("work_sheet_name", JString w);
                   ("class_name", JString c); ("in_path", JString ip); ("out_path", JString op);
                   ("namespace", JString ns)]) as -> by reflexivity.
  apply (decode_input_object _ (VStr <$> hs)); [apply decode_headers|apply strs_of_strs].
Qed.

Lemma decode_inputs_to_json l : decode_inputs (JArray (input_to_json <$> l)) = Ok l.
Proof.
  cbn [decode_inputs]. induction l as [|i l IH]; [done|].
  rewrite fmap_cons. cbn [mapM]. by rewrite decode_input_to_json, IH.
Qed.

Lemma visit_seq_length fs n l vs : visit_seq fs n l = Ok vs → length l = length fs.
Proof.
  revert n l vs. induction fs as [|[f t] fs IH]; intros n [|j l] vs; cbn; try done.
  intros (v & _ & (ws & Hws & _)%bind_Res_Ok)%bind_Res_Ok. f_equal. by eapply IH.
Qed.

(** ** Theorems *)

(** C8: Round trip: the JSON that the derived [Serialize] of [Input]
    writes for a list of jobs is decoded by [Vec<Input>]'s derived
    [Deserialize] back to the same list. *)
Theorem inputs_json_roundtrip l : decode_inputs (JArray (input_to_json <$> l)) = Ok l.
Proof. apply decode_inputs_to_json. Qed.

(** C24: Duplicate keys are refused: when an object decodes as an
    [Input], none of the six field names occurs twice among its keys. *)
Theorem decode_input_no_duplicate_fields kvs i :
  decode_input (JObject kvs) = Ok i → NoDup (filter (λ k, k ∈ input_schema.*1) kvs.*1).
Proof.
  unfold decode_input. cbn [decode_struct].
  intros (vs & (slots & Hm & _)%bind_Res_Ok & _)%bind_Res_Ok.
  eapply visit_map_nodup; [|exact Hm]. apply length_replicate.
Qed.

(** Witness of C24: the sample job object. *)
Lemma decode_input_no_duplicate_fields_witness :
  NoDup (filter (λ k, k ∈ input_schema.*1) sample_fields.*1).
Proof.
  apply (decode_input_no_duplicate_fields _ sample_input).
  apply (decode_input_to_json sample_input).
Defined.

(** C25: Every field of [Input] is required: none has an [Option] type
    or a [#[serde(default)]], so an object that decodes as an [Input] has a
    key for each of the six fields. *)
Theorem decode_input_required_fields kvs i f :
  decode_input (JObject kvs) = Ok i → f ∈ input_schema.*1 → f ∈ kvs.*1.
Proof.
  unfold decode_input. intros (vs & Hvs & _)%bind_Res_Ok
    ((f', t) & -> & (n & Hn)%list_elem_of_lookup)%list_elem_of_fmap.
  eapply decode_object_required; [exact Hvs|exact Hn|]. intros t' ->.
  do 6 (destruct n as [|n]; [by injection Hn|]). done.
Qed.

(** Witness of C25: ["out_path"] is a key of the serialized sample job. *)
Lemma decode_input_required_fields_witness :
  "out_path" ∈ sample_fields.*1.
Proof.
  apply (decode_input_required_fields _ sample_input).
  - apply (decode_input_to_json sample_input).
  - cbn. set_solver.
Defined.

(** C28: Unknown keys are skipped: an object decodes as a struct exactly
    as its restriction to the keys that name fields. *)
Theorem decode_struct_ignores_unknown_keys fs kvs :
  decode_struct fs (JObject kvs) = decode_struct fs (JObject (filter (λ kv, kv.1 ∈ fs.*1) kvs)).
Proof. cbn [decode_struct]. by rewrite <-visit_map_filter. Qed.

(** C26: The job file may also give a job as a JSON array of its six
    fields in declaration order (serde's derived [visit_seq]); the decoded
    job is the one the object form gives. *)
Theorem decode_input_array_form hs w c ip op ns :
  decode_input (JArray [JArray (JString <$> hs); JString w; JString c; JString ip; JString op; JString ns])
  = decode_input (input_to_json (mkInput hs w c ip op ns)).
Proof.
  rewrite decode_input_to_json.
  apply (decode_input_array _ (VStr <$> hs)); [apply decode_headers|apply strs_of_strs].
Qed.

(** C27: In the array form a job has exactly six elements: fewer is
    [invalid_length], more is serde_json's trailing-characters error. *)
Theorem decode_input_array_length l i : decode_input (JArray l) = Ok i → length l = 6.
Proof.
  unfold decode_input. intros (vs & Hvs & _)%bind_Res_Ok. by apply visit_seq_length in Hvs.
Qed.

(** Witness of C27: the sample job in array form. *)
Lemma decode_input_array_length_witness :
  length [JArray [JString "##var"]; JString "Sheet1"; JString "Item"; JString "item.xlsx";
          JString "Item.cs"; JString "Game"] = 6.
Proof.
  apply (decode_input_array_length _ (mkInput ["##var"] "Sheet1" "Item" "item.xlsx" "Item.cs" "Game")).
  vm_compute. reflexivity.
Defined.

