(* ===== verification/Pipeline.v ===== *)
(** * Pipeline: one job ([handle_input]) and the whole run ([gen_code])

    [Input] is the job record of lines 23-31 ([Config]).  [load_input_from_json]
    (lines 44-52) reads [inputs.json] and decodes it with serde; the decoder
    is a parameter [parse_inputs] of the section, since JSON parsing is the
    library's.  [handle_input] (lines 54-121) opens the workbook, finds the
    sheet, projects it ([Projector.project]), deletes an existing output
    file, creates the output file, renders the template and writes the text.
    [gen_code] (lines 33-42) loads the jobs, returns at once when there are
    none, prints them, and runs [handle_input] on each in order,
    [unwrap]ping every result ([Config.serde_inputs] is the decoder the
    program passes as [parse_inputs]).  [test_gen_code] is
    the test module of lines 123-130.

    The world is the file system [FS] and the standard output, a list of
    [Event]s.  Rust's two ways of failing are kept apart: [HErr] is an
    [Err] returned through [?] (lines 57, 61, 117), [HPanic] a panic of an
    [unwrap] or an out-of-range index (lines 101, 113, 116, 117).  Both
    carry the world at the point of failure, since the file operations done
    before it are not undone.  In [gen_code] an [Err] of a job is
    [unwrap]ped too, so any failure of a job aborts the run ([Aborted]). *)

From stdpp Require Import gmap.
From S2P Require Import Prelude RustStr Sheet Projector Render FileSys Config.

(** ** Data *)

(** What the program prints: the job list ([println!("{:#?}", inputs)]) and
    the path of each generated file. *)
Inductive Event : Type :=
  | PrintedInputs (inputs : list Input)
  | Generated (path : string).

Record World : Type := mkWorld {
  fs : FS;
  stdout : list Event
}.

(** The errors that [handle_input] returns with [?]. *)
Inductive JobError : Type :=
  | WorkbookOpenError (path : string)
  | Msg (msg : string).             (* [calamine::Error::Msg], line 61 *)

(** The message of line 61, the same whatever sheet name the job gives. *)
Definition sheet_not_found : string := "Cannot find Sheet1".

(** The panics. *)
Inductive Panic : Type :=
  | ConfigError                    (* [load_input_from_json().unwrap()] *)
  | IndexOutOfBounds               (* [row[i]] or [x[k]] *)
  | RemoveFailed (path : string)   (* [remove_file(..).unwrap()] *)
  | CreateFailed (path : string)   (* [File::create(..).unwrap()] *)
  | RenderFailed                   (* [render().unwrap()] *)
  | JobFailed (e : JobError).      (* [handle_input(input).unwrap()] *)

Inductive HResult : Type :=
  | HOk (w : World)
  | HErr (e : JobError) (w : World)
  | HPanic (p : Panic) (w : World).

Inductive Outcome : Type :=
  | Finished (w : World)
  | Aborted (p : Panic) (w : World).

Definition with_fs (w : World) (f : FS) : World := mkWorld f (stdout w).

(** The configuration file read at line 46. *)
Definition config_path : string := "inputs.json".

Section Run.
Context `{T : Template}.
(** [serde_json::from_str::<Vec<Input>>]: [None] for malformed JSON. *)
Variable parse_inputs : string → option (list Input).

(** ** Operations *)

(** Lines 44-52: [None] is the [Err] that [gen_code] unwraps. *)
Definition load_input_from_json (w : World) : option (list Input) :=
  txt ← read_to_string (fs w) config_path; parse_inputs txt.

(** Lines 110-118, after the projection: replace the output file. *)
Definition write_output (w : World) (input : Input) (tuples : list (string * string * string))
    : HResult :=
  let p := out_path input in
  match (if path_exists (fs w) p then remove_file (fs w) p else Some (fs w)) with
  | None => HPanic (RemoveFailed p) w
  | Some fs1 =>
      match file_create fs1 p with
      | None => HPanic (CreateFailed p) (with_fs w fs1)
      | Some fs2 =>
          match render (namespace input) (class_name input) tuples with
          | None => HPanic RenderFailed (with_fs w fs2)
          | Some text => HOk (mkWorld (write_all fs2 p text) (stdout w ++ [Generated p]))
          end
      end
  end.

(** Lines 54-121. *)
Definition handle_input (w : World) (input : Input) : HResult :=
  match open_workbook (fs w) (in_path input) with
  | None => HErr (WorkbookOpenError (in_path input)) w
  | Some excel =>
      match worksheet_range excel (work_sheet_name input) with
      | None => HErr (Msg sheet_not_found) w
      | Some range =>
          match project (headers input) range with
          | None => HPanic IndexOutOfBounds w
          | Some tuples => write_output w input tuples
          end
      end
  end.

(** The loop of lines 39-41. *)
Fixpoint run_jobs (w : World) (inputs : list Input) : Outcome :=
  match inputs with
  | [] => Finished w
  | input :: rest =>
      match handle_input w input with
      | HOk w' => run_jobs w' rest
      | HErr e w' => Aborted (JobFailed e) w'
      | HPanic p w' => Aborted p w'
      end
  end.

(** Lines 33-42. *)
Definition gen_code (w : World) : Outcome :=
  match load_input_from_json w with
  | None => Aborted ConfigError w
  | Some inputs =>
      if decide (length inputs = 0) then Finished w
      else run_jobs (mkWorld (fs w) (stdout w ++ [PrintedInputs inputs])) inputs
  end.
End Run.

(** ** A sample installation, used by the witnesses

    One job over the spec's example sheet, a decoder that knows two
    configuration texts, and a template that always fails to render. *)

Definition demo_range : Range :=
  [[DString "##var"; DString "type"; DString "remark"];
   [DString "id"; DString "int"; DString "the identifier"]].

Definition demo_job : Input :=
  mkInput ["##var"; "type"; "remark"] "Sheet1" "Item" "item.xlsx" "Item.cs" "Game".

Definition missing_job : Input :=
  mkInput ["##var"; "type"; "remark"] "Sheet1" "Lost" "missing.xlsx" "Lost.cs" "Game".

Definition narrow_job : Input :=
  mkInput ["##var"; "type"; "remark"] "Narrow" "Narrow" "item.xlsx" "Narrow.cs" "Game".

Definition demo_parse (txt : string) : option (list Input) :=
  if decide (txt = "[item]") then Some [demo_job]
  else if decide (txt = "[]") then Some [] else None.

Definition demo_book : Workbook :=
  [("Sheet1", demo_range);
   ("Narrow", [[DString "##var"; DString "type"]; [DString "id"; DString "int"]])].

Definition demo_world (config : string) : World :=
  mkWorld (mkFS (<["inputs.json" := Text config]>
                 (<["item.xlsx" := Book demo_book]>
                 (<["Item.cs" := Text "stale"]> ∅))) ∅) [].

(** The world after one successful step, or the start world. *)
Definition after_job (w : World) (h : HResult) : World :=
  match h with HOk w' => w' | _ => w end.

Definition after_run (w : World) (o : Outcome) : World :=
  match o with Finished w' => w' | Aborted _ w' => w' end.

Definition broken_template : Template := {| render _ _ _ := None |}.

(** ** The test module (lines 123-130) *)

(** [fn test_gen_code]: runs the generator in the working directory. *)
Definition test_gen_code `{T : Template} (parse_inputs : string → option (list Input)) (w : World)
    : Outcome :=
  gen_code parse_inputs w.

(** A Rust test passes when it returns without panicking. *)
Definition test_passes (o : Outcome) : bool :=
  match o with Finished _ => true | Aborted _ _ => false end.

(** ** Lemmas *)

Section RunLemmas.
Context `{T : Template}.

(** The text a job generates from its workbook, when it generates one. *)
Definition job_text (input : Input) (excel : Workbook) : option string :=
  range ← worksheet_range excel (work_sheet_name input);
  tuples ← project (headers input) range;
  render (namespace input) (class_name input) tuples.

(** Closes [HOk w0 = HOk w1 ↔ ∃ text, ...] once the world is computed. *)
Local Ltac solve_HOk :=
  split; [intros [= <-]; eauto 10
         |intros (? & [= <-] & _ & Hfs & Hout);
          match goal with |- HOk _ = HOk ?w => destruct w end; cbn in *; by subst].

(** The output step succeeds exactly when the path may be written and the
    template renders; the file then holds exactly the rendered text. *)
Lemma write_output_HOk w input tuples w' :
  write_output w input tuples = HOk w' ↔
  ∃ text, render (namespace input) (class_name input) tuples = Some text ∧
    out_path input ∉ denied (fs w) ∧
    fs w' = mkFS (<[out_path input := Text text]> (files (fs w))) (denied (fs w)) ∧
    stdout w' = stdout w ++ [Generated (out_path input)].
Proof.
  unfold write_output. set (p := out_path input).
  destruct (path_exists (fs w) p) eqn:He.
  - destruct (remove_file (fs w) p) as [fs1|] eqn:Hr.
    2:{ split; [done|]. intros (text & _ & Hp & _). exfalso. revert Hr. unfold remove_file.
        rewrite bool_decide_false by done. by rewrite He. }
    apply remove_file_Some in Hr as (Hp & _ & ->).
    destruct (file_create _ p) as [fs2|] eqn:Hc.
    2:{ exfalso. revert Hc. unfold file_create. cbn. by rewrite bool_decide_false. }
    apply file_create_Some in Hc as [_ ->].
    destruct (render _ _ _) as [text|]; [|naive_solver].
    rewrite write_all_created by (cbn; apply lookup_insert_eq). cbn.
    rewrite insert_insert_eq, insert_delete_eq. solve_HOk.
  - destruct (file_create (fs w) p) as [fs2|] eqn:Hc.
    2:{ split; [done|]. intros (text & _ & Hp & _). exfalso. revert Hc. unfold file_create.
        by rewrite bool_decide_false. }
    apply file_create_Some in Hc as [Hp ->].
    destruct (render _ _ _) as [text|]; [|naive_solver].
    rewrite write_all_created by (cbn; apply lookup_insert_eq). cbn.
    rewrite insert_insert_eq. solve_HOk.
Qed.

(** A job succeeds exactly when its workbook opens, its text is generated
    and its output path may be written; only that path changes. *)
Lemma handle_input_HOk w input w' :
  handle_input w input = HOk w' ↔
  ∃ excel text, open_workbook (fs w) (in_path input) = Some excel ∧
    job_text input excel = Some text ∧ out_path input ∉ denied (fs w) ∧
    fs w' = mkFS (<[out_path input := Text text]> (files (fs w))) (denied (fs w)) ∧
    stdout w' = stdout w ++ [Generated (out_path input)].
Proof.
  unfold handle_input, job_text.
  destruct (open_workbook _ _) as [excel|]; [|split; [done|]; by intros (? & ? & ? & _)].
  split.
  - destruct (worksheet_range _ _) as [range|] eqn:Hr; [|done]. cbn.
    destruct (project _ _) as [tuples|] eqn:Hp; [|done]. cbn.
    rewrite write_output_HOk. intros (text & ? & ? & ? & ?). exists excel, text.
    rewrite Hr. cbn. rewrite Hp. cbn. eauto 10.
  - intros (excel' & text & [= <-] & Ht & Hp & Hfs & Hout).
    destruct (worksheet_range _ _) as [range|]; [|done]. cbn in Ht |- *.
    destruct (project _ _) as [tuples|]; [|done]. cbn in Ht |- *.
    apply write_output_HOk. eauto.
Qed.

(** The run after a prefix of jobs: a failure stops it. *)
Lemma run_jobs_app w l1 l2 :
  run_jobs w (l1 ++ l2) =
    match run_jobs w l1 with Finished w' => run_jobs w' l2 | a => a end.
Proof.
  revert w. induction l1 as [|i l1 IH]; intros w; [done|]. cbn.
  destruct (handle_input w i); [apply IH|done|done].
Qed.

(** Frame: a successful run changes only the output paths of its jobs. *)
Lemma run_jobs_frame w inputs w' p :
  run_jobs w inputs = Finished w' → p ∉ out_path <$> inputs →
  files (fs w') !! p = files (fs w) !! p ∧ denied (fs w') = denied (fs w).
Proof.
  revert w. induction inputs as [|i inputs IH]; intros w Hrun Hp; cbn in Hrun.
  - by simplify_eq.
  - destruct (handle_input w i) as [w1| |] eqn:Hh; try done.
    apply handle_input_HOk in Hh as (excel & text & _ & _ & _ & Hfs & _).
    rewrite fmap_cons, elem_of_cons in Hp.
    destruct (IH w1) as [-> ->]; [done|naive_solver|]. rewrite Hfs. cbn.
    split; [|done]. apply lookup_insert_ne. naive_solver.
Qed.

(** Replaying a successful run from a world that agrees with the first on
    every input path gives each output path its value of the first run,
    provided no job writes a path that a job reads. *)
Lemma run_jobs_replay w inputs w' v :
  run_jobs w inputs = Finished w' →
  (∀ i j, i ∈ inputs → j ∈ inputs → out_path i ≠ in_path j) →
  (∀ j, j ∈ inputs → files (fs v) !! in_path j = files (fs w) !! in_path j) →
  denied (fs v) = denied (fs w) →
  ∃ v', run_jobs v inputs = Finished v' ∧ denied (fs v') = denied (fs v) ∧
    ∀ p, files (fs v') !! p =
      if decide (p ∈ out_path <$> inputs) then files (fs w') !! p else files (fs v) !! p.
Proof.
  revert w v. induction inputs as [|i inputs IH]; intros w v Hrun Hdisj Hin Hden.
  { cbn in *. exists v. naive_solver. }
  cbn in Hrun. destruct (handle_input w i) as [w1| |] eqn:Hh; try done.
  pose proof Hh as Hh'. apply handle_input_HOk in Hh' as (excel & text & Ho & Hj & Hd & Hfs1 & _).
  assert (open_workbook (fs v) (in_path i) = Some excel) as Hov.
  { unfold open_workbook in *. rewrite Hin by by left. done. }
  assert (handle_input v i = HOk
    (mkWorld (mkFS (<[out_path i := Text text]> (files (fs v))) (denied (fs v)))
             (stdout v ++ [Generated (out_path i)]))) as Hhv.
  { apply handle_input_HOk. exists excel, text. rewrite Hden. naive_solver. }
  destruct (IH w1 (mkWorld (mkFS (<[out_path i := Text text]> (files (fs v))) (denied (fs v)))
             (stdout v ++ [Generated (out_path i)])) Hrun) as (v' & Hrun' & Hden' & Hv').
  - intros a b Ha Hb. apply Hdisj; by right.
  - intros j Hj'. rewrite Hfs1. cbn.
    assert (out_path i ≠ in_path j) by (apply Hdisj; [by left|by right]).
    rewrite !lookup_insert_ne by done. apply Hin. by right.
  - rewrite Hfs1. cbn. by rewrite Hden.
  - exists v'. cbn. rewrite Hhv. split; [done|]. split; [by rewrite Hden'|].
    intros p. rewrite Hv'. cbn.
    destruct (decide (p ∈ out_path <$> inputs)) as [Hp|Hp].
    + rewrite decide_True by set_solver. done.
    + destruct (decide (p = out_path i)) as [->|Hne].
      * rewrite decide_True by set_solver. rewrite lookup_insert_eq.
        rewrite (proj1 (run_jobs_frame _ _ _ _ Hrun Hp)), Hfs1. cbn.
        by rewrite lookup_insert_eq.
      * rewrite decide_False by set_solver. by rewrite lookup_insert_ne.
Qed.

End RunLemmas.

(** ** Claims *)

Section Claims.
Context `{T : Template}.
Variable parse_inputs : string → option (list Input).

(** C15: Zero configured jobs: when [inputs.json] decodes to the empty
    list, the run finishes with the world unchanged: no file is read
    beyond the configuration, none is written, nothing is printed. *)
Theorem gen_code_no_jobs w :
  load_input_from_json parse_inputs w = Some [] → gen_code parse_inputs w = Finished w.
Proof. intros Hl. unfold gen_code. by rewrite Hl. Qed.

(** C6: Full replacement: a job that succeeds leaves at its output path
    exactly the text rendered from its workbook, whatever the path held
    before, and changes no other path. *)
Theorem handle_input_replaces w input w' :
  handle_input w input = HOk w' →
  ∃ excel text, open_workbook (fs w) (in_path input) = Some excel ∧
    job_text input excel = Some text ∧
    files (fs w') !! out_path input = Some (Text text) ∧
    ∀ q, q ≠ out_path input → files (fs w') !! q = files (fs w) !! q.
Proof.
  intros (excel & text & Ho & Hj & _ & Hfs & _)%handle_input_HOk.
  exists excel, text. rewrite Hfs. cbn. split; [done|]. split; [done|].
  split; [apply lookup_insert_eq|]. intros q Hq. by apply lookup_insert_ne.
Qed.

(** C13: Abort on the first failure: when the jobs before it succeed and
    a job returns an error (a missing workbook or sheet), the error is
    [unwrap]ped: the run aborts in that job's state and the jobs after it
    never run (the spec asks for later jobs to proceed). *)
Theorem run_jobs_abort w l1 i l2 w1 e w2 :
  run_jobs w l1 = Finished w1 → handle_input w1 i = HErr e w2 →
  run_jobs w (l1 ++ i :: l2) = Aborted (JobFailed e) w2.
Proof. intros H1 H2. rewrite run_jobs_app, H1. cbn. by rewrite H2. Qed.

(** C4: Re-running is stable: when no job writes the configuration file
    or a path some job reads, running the generator again on the files it
    produced finishes and leaves the file system byte-for-byte unchanged. *)
Theorem gen_code_rerun_stable w w1 inputs :
  load_input_from_json parse_inputs w = Some inputs →
  (∀ i j, i ∈ inputs → j ∈ inputs → out_path i ≠ in_path j) →
  (∀ i, i ∈ inputs → out_path i ≠ config_path) →
  gen_code parse_inputs w = Finished w1 →
  ∃ w2, gen_code parse_inputs w1 = Finished w2 ∧ fs w2 = fs w1.
Proof.
  intros Hl Hdisj Hcfg Hgen. unfold gen_code in Hgen |- *. rewrite Hl in Hgen.
  case_decide as Hlen; [simplify_eq; rewrite Hl; by eexists; rewrite decide_True|].
  set (w0 := mkWorld (fs w) (stdout w ++ [PrintedInputs inputs])) in Hgen.
  assert (config_path ∉ out_path <$> inputs) as Hc.
  { intros (i & Hi & Hin)%list_elem_of_fmap. by apply (Hcfg i Hin). }
  assert (load_input_from_json parse_inputs w1 = Some inputs) as Hl1.
  { unfold load_input_from_json, read_to_string in *.
    by rewrite (proj1 (run_jobs_frame _ _ _ _ Hgen Hc)). }
  rewrite Hl1, decide_False by done.
  destruct (run_jobs_replay w0 inputs w1 (mkWorld (fs w1) (stdout w1 ++ [PrintedInputs inputs])) Hgen Hdisj)
    as (v' & Hrun & Hden & Hv').
  - intros j Hj. assert (in_path j ∉ out_path <$> inputs) as Hnot.
    { intros (i & Hi & Hin)%list_elem_of_fmap. by apply (Hdisj i j). }
    apply (proj1 (run_jobs_frame w0 inputs w1 _ Hgen Hnot)).
  - apply (proj2 (run_jobs_frame _ _ _ config_path Hgen Hc)).
  - exists v'. split; [done|]. destruct v' as [[fv dv] ov], w1 as [[f1 d1] o1].
    cbn in *. f_equal; [|done]. apply map_eq. intros p.
    specialize (Hv' p). by case_decide.
Qed.
End Claims.

(** Witness of C15: the configuration [[]] generates nothing. *)
Lemma gen_code_no_jobs_witness :
  gen_code demo_parse (demo_world "[]") = Finished (demo_world "[]").
Proof. apply gen_code_no_jobs. reflexivity. Defined.

(** Witness of C6: the sample job replaces the stale [Item.cs]. *)
Lemma handle_input_replaces_witness :
  ∃ excel text, open_workbook (fs (demo_world "[item]")) "item.xlsx" = Some excel ∧
    job_text demo_job excel = Some text ∧
    files (fs (after_job (demo_world "[item]") (handle_input (demo_world "[item]") demo_job)))
      !! "Item.cs" = Some (Text text) ∧
    ∀ q, q ≠ "Item.cs" →
      files (fs (after_job (demo_world "[item]") (handle_input (demo_world "[item]") demo_job))) !! q
      = files (fs (demo_world "[item]")) !! q.
Proof. apply (handle_input_replaces (demo_world "[item]") demo_job). vm_compute. reflexivity. Defined.

(** Witness of C13: after the sample job, a job whose workbook is missing
    stops the run before the sample job runs again. *)
Lemma run_jobs_abort_witness :
  run_jobs (demo_world "[item]") ([demo_job] ++ missing_job :: [demo_job])
  = Aborted (JobFailed (WorkbookOpenError "missing.xlsx"))
            (after_job (demo_world "[item]") (handle_input (demo_world "[item]") demo_job)).
Proof.
  apply (run_jobs_abort _ _ _ _ (after_job (demo_world "[item]") (handle_input (demo_world "[item]") demo_job)));
    vm_compute; reflexivity.
Defined.

(** Witness of C4: re-running the sample installation. *)
Lemma gen_code_rerun_stable_witness :
  ∃ w2, gen_code demo_parse (after_run (demo_world "[item]") (gen_code demo_parse (demo_world "[item]")))
        = Finished w2
      ∧ fs w2 = fs (after_run (demo_world "[item]") (gen_code demo_parse (demo_world "[item]"))).
Proof.
  apply (gen_code_rerun_stable demo_parse (demo_world "[item]") _ [demo_job]).
  - reflexivity.
  - intros i j ->%list_elem_of_singleton ->%list_elem_of_singleton. done.
  - intros i ->%list_elem_of_singleton. done.
  - vm_compute. reflexivity.
Defined.

Section MoreClaims.
Context `{T : Template}.
Variable parse_inputs : string → option (list Input).

(** C21: The output file is created before the template is rendered
    (lines 116-117): when rendering fails, the run panics and leaves the
    destination truncated to an empty file, its old content lost. *)
Theorem write_output_render_failure w input tuples :
  out_path input ∉ denied (fs w) →
  render (namespace input) (class_name input) tuples = None →
  ∃ w', write_output w input tuples = HPanic RenderFailed w' ∧
    files (fs w') !! out_path input = Some (Text "").
Proof.
  intros Hd Hr. unfold write_output. cbv zeta.
  assert (∃ fs1, (if path_exists (fs w) (out_path input)
                  then remove_file (fs w) (out_path input) else Some (fs w)) = Some fs1 ∧
                 denied fs1 = denied (fs w)) as (fs1 & Hif & Hd1).
  { destruct (path_exists _ _) eqn:He; [|by eexists].
    exists (mkFS (delete (out_path input) (files (fs w))) (denied (fs w))).
    split; [|done]. unfold remove_file. by rewrite bool_decide_false, He. }
  rewrite Hif.
  unfold file_create. rewrite Hd1, bool_decide_false by done. rewrite Hr.
  eexists. split; [done|]. apply lookup_insert_eq.
Qed.

(** C22: A sheet whose projection panics (a short collected row, an
    out-of-range cell) stops the job before the output file is touched:
    the world is left exactly as it was. *)
Theorem handle_input_projection_panic w input excel range :
  open_workbook (fs w) (in_path input) = Some excel →
  worksheet_range excel (work_sheet_name input) = Some range →
  project (headers input) range = None →
  handle_input w input = HPanic IndexOutOfBounds w.
Proof. intros Ho Hw Hp. unfold handle_input. by rewrite Ho, Hw, Hp. Qed.

End MoreClaims.

(** Witness of C21: the always-failing template empties the stale
    [Item.cs]. *)
Lemma write_output_render_failure_witness :
  ∃ w', write_output (T := broken_template) (demo_world "[item]") demo_job [] = HPanic RenderFailed w' ∧
    files (fs w') !! "Item.cs" = Some (Text "").
Proof. apply (write_output_render_failure (T := broken_template)); [set_solver|reflexivity]. Defined.

(** Witness of C22: the two-column sheet [Narrow] panics in [x[2]]. *)
Lemma handle_input_projection_panic_witness :
  handle_input (demo_world "[item]") narrow_job = HPanic IndexOutOfBounds (demo_world "[item]").
Proof.
  apply (handle_input_projection_panic _ _ demo_book [[DString "##var"; DString "type"];
                                             [DString "id"; DString "int"]]); vm_compute; reflexivity.
Defined.

(** The test module's only test fails in a working directory without
    [inputs.json]: [gen_code] panics on [load_input_from_json().unwrap()]
    before anything is written. *)
Theorem test_gen_code_needs_config `{T : Template} parse_inputs w :
  files (fs w) !! config_path = None → test_gen_code parse_inputs w = Aborted ConfigError w.
Proof.
  intros Hc. unfold test_gen_code, gen_code, load_input_from_json, read_to_string. by rewrite Hc.
Qed.

(** On an empty working directory the test fails. *)
Lemma test_gen_code_empty_dir :
  test_passes (test_gen_code demo_parse (mkWorld (mkFS ∅ ∅) [])) = false.
Proof.
  rewrite (test_gen_code_needs_config demo_parse (mkWorld (mkFS ∅ ∅) [])); [reflexivity|].
  vm_compute. reflexivity.
Defined.
