(* ===== verification/EndToEnd.v ===== *)
(** * EndToEnd: one job from the workbook to the generated file

    The spec's control flow for a job is SheetExtractor, RowProjector,
    TemplateRenderer, OutputWriter.  This file composes the theorems of
    the components along that flow: for any template that keeps the
    contract [TemplateLaws], on the sheet layout the code was written for
    ([RoleSpec.layout_ok]), a job that succeeds leaves at its output path
    the template's head, one field block per field of the role-bound
    projection ([RoleSpec.role_project]) in row order, and the tail. *)

From stdpp Require Import gmap.
From S2P Require Import Prelude Sheet Projector RoleSpec Render FileSys Config Pipeline.

Section EndToEnd.
Context {T : Template} {TL : TemplateLaws T}.

(** The text a job generates, through the template's contract. *)
Lemma job_text_shape input excel text :
  job_text input excel = Some text →
  ∃ range tuples, worksheet_range excel (work_sheet_name input) = Some range ∧
    project (headers input) range = Some tuples ∧
    text = tpl_head (namespace input) (class_name input) ⊕ concat_str (tpl_field <$> tuples) ⊕ tpl_tail.
Proof.
  unfold job_text. intros (range & Hr & (tuples & Hp & Ht)%bind_Some)%bind_Some.
  exists range, tuples. split_and!; [done|done|]. by apply render_shape.
Qed.

(** C5: End to end: for a template that keeps its contract, a job whose
    sheet has the layout the code assumes and which succeeds leaves at its
    output path exactly the template's head, one field block per field of
    the spec's role-bound projection of the sheet, in row order, and the
    tail. *)
Theorem generated_file_spec w input w' excel range :
  open_workbook (fs w) (in_path input) = Some excel →
  worksheet_range excel (work_sheet_name input) = Some range →
  layout_ok (headers input) range = true →
  handle_input w input = HOk w' →
  ∃ fields, role_project (headers input) range = Some fields ∧
    files (fs w') !! out_path input =
      Some (Text (tpl_head (namespace input) (class_name input) ⊕ concat_str (tpl_field <$> fields) ⊕ tpl_tail)).
Proof.
  intros Ho Hw Hl (excel' & text & Ho' & Ht & _ & Hfs & _)%handle_input_HOk.
  rewrite Ho in Ho'. injection Ho' as <-.
  destruct (job_text_shape _ _ _ Ht) as (range' & tuples & Hw' & Hp & ->).
  rewrite Hw in Hw'. injection Hw' as <-.
  exists tuples. rewrite <-(layout_ok_project _ _ Hl). split; [done|].
  rewrite Hfs. cbn. apply lookup_insert_eq.
Qed.
End EndToEnd.

(** Witness of C5: the sample job over the spec's example sheet, with the
    [code.txt] template. *)
Lemma generated_file_spec_witness :
  ∃ fields, role_project (headers demo_job) demo_range = Some fields ∧
    files (fs (after_job (demo_world "[item]") (handle_input (demo_world "[item]") demo_job)))
      !! out_path demo_job =
      Some (Text (code_txt_head "Game" "Item" ⊕ concat_str (code_txt_field <$> fields) ⊕ code_txt_tail)).
Proof.
  apply (generated_file_spec (TL := code_txt_laws) (demo_world "[item]") demo_job _ demo_book);
    vm_compute; reflexivity.
Defined.
