(* ===== verification/Machine.v ===== *)
(** * Machine: the run as a sequence of system calls

    [Pipeline] gives each job and the whole run as functions from a world
    to a result.  This file gives the same code as a small-step machine
    whose steps are the program's effects in the order they happen, so
    that the states between them can be talked about: the states a crash
    (a kill, a power loss) would leave on disk.

    A machine holds the world, the code still to run and, once a [panic!]
    or [unwrap] has fired, the panic.  The code is a list of instructions:
    - [IJob input]: lines 55-108 of [handle_input]: open the workbook, find
      the sheet, project it; on success the job continues with the four
      instructions of [output_code];
    - [IRemove p]: lines 112-114, [remove_file] when the path exists;
    - [ICreate p]: line 116, [File::create];
    - [IWrite p ns cls tuples]: line 117, render the template and
      [write_all] the text;
    - [IPrint p]: line 118, the [println!] of the generated path.
    The loop of [gen_code] (lines 39-41) starts the machine with one
    [IJob] per job ([boot]).

    [step] is the relation, one constructor per branch of the code;
    [step_fn] is the same step as a function, used to run the machine on
    examples.  [job_steps] and [run_steps] tie the machine to [Pipeline]:
    five steps of a job compute [handle_input], and the machine of a job
    list reaches the outcome of [run_jobs].  The theorems are invariants
    of every reachable state, proved by rule induction on [rtc step]: the
    frame (paths that are no job's output keep their contents) and the
    crash windows of the output replacement. *)

From stdpp Require Import gmap relations.
From S2P Require Import Prelude Sheet Projector Render FileSys Config Pipeline.

(** ** Instructions and machines *)

Inductive Instr : Type :=
  | IJob (input : Input)
  | IRemove (p : string)
  | ICreate (p : string)
  | IWrite (p ns cls : string) (tuples : list (string * string * string))
  | IPrint (p : string).

Record Machine : Type := mkMachine {
  mworld : World;
  code : list Instr;
  halt : option Panic
}.

(** The path an instruction writes: a job writes its output path. *)
Definition instr_path (ins : Instr) : string :=
  match ins with
  | IJob input => out_path input
  | IRemove p | ICreate p | IPrint p => p
  | IWrite p _ _ _ => p
  end.

(** Lines 110-118 for a job whose projection gave [tuples]. *)
Definition output_code (input : Input) (tuples : list (string * string * string)) : list Instr :=
  [IRemove (out_path input); ICreate (out_path input);
   IWrite (out_path input) (namespace input) (class_name input) tuples; IPrint (out_path input)].

(** The machine of a job list. *)
Definition boot (w : World) (inputs : list Input) : Machine :=
  mkMachine w (IJob <$> inputs) None.

Definition is_final (m : Machine) : bool :=
  match halt m, code m with
  | None, _ :: _ => false
  | _, _ => true
  end.

(** What a final machine reports, as [run_jobs] and [gen_code] do. *)
Definition outcome_of (m : Machine) : Outcome :=
  match halt m with
  | None => Finished (mworld m)
  | Some p => Aborted p (mworld m)
  end.

Section Step.
Context `{T : Template}.

(** ** The step relation *)

Inductive step : Machine → Machine → Prop :=
  | step_job w input rest excel range tuples :
      open_workbook (fs w) (in_path input) = Some excel →
      worksheet_range excel (work_sheet_name input) = Some range →
      project (headers input) range = Some tuples →
      step (mkMachine w (IJob input :: rest) None) (mkMachine w (output_code input tuples ++ rest) None)
  | step_job_open w input rest :
      open_workbook (fs w) (in_path input) = None →
      step (mkMachine w (IJob input :: rest) None)
           (mkMachine w rest (Some (JobFailed (WorkbookOpenError (in_path input)))))
  | step_job_sheet w input rest excel :
      open_workbook (fs w) (in_path input) = Some excel →
      worksheet_range excel (work_sheet_name input) = None →
      step (mkMachine w (IJob input :: rest) None)
           (mkMachine w rest (Some (JobFailed (Msg sheet_not_found))))
  | step_job_index w input rest excel range :
      open_workbook (fs w) (in_path input) = Some excel →
      worksheet_range excel (work_sheet_name input) = Some range →
      project (headers input) range = None →
      step (mkMachine w (IJob input :: rest) None) (mkMachine w rest (Some IndexOutOfBounds))
  | step_remove_absent w p rest :
      path_exists (fs w) p = false →
      step (mkMachine w (IRemove p :: rest) None) (mkMachine w rest None)
  | step_remove w p rest f :
      path_exists (fs w) p = true → remove_file (fs w) p = Some f →
      step (mkMachine w (IRemove p :: rest) None) (mkMachine (with_fs w f) rest None)
  | step_remove_fail w p rest :
      path_exists (fs w) p = true → remove_file (fs w) p = None →
      step (mkMachine w (IRemove p :: rest) None) (mkMachine w rest (Some (RemoveFailed p)))
  | step_create w p rest f :
      file_create (fs w) p = Some f →
      step (mkMachine w (ICreate p :: rest) None) (mkMachine (with_fs w f) rest None)
  | step_create_fail w p rest :
      file_create (fs w) p = None →
      step (mkMachine w (ICreate p :: rest) None) (mkMachine w rest (Some (CreateFailed p)))
  | step_write w p ns cls tuples rest text :
      render ns cls tuples = Some text →
      step (mkMachine w (IWrite p ns cls tuples :: rest) None)
           (mkMachine (with_fs w (write_all (fs w) p text)) rest None)
  | step_write_fail w p ns cls tuples rest :
      render ns cls tuples = None →
      step (mkMachine w (IWrite p ns cls tuples :: rest) None) (mkMachine w rest (Some RenderFailed))
  | step_print w p rest :
      step (mkMachine w (IPrint p :: rest) None)
           (mkMachine (mkWorld (fs w) (stdout w ++ [Generated p])) rest None).

(** ** The step as a function *)

Definition exec (w : World) (ins : Instr) (rest : list Instr) : Machine :=
  match ins with
  | IJob input =>
      match open_workbook (fs w) (in_path input) with
      | None => mkMachine w rest (Some (JobFailed (WorkbookOpenError (in_path input))))
      | Some excel =>
          match worksheet_range excel (work_sheet_name input) with
          | None => mkMachine w rest (Some (JobFailed (Msg sheet_not_found)))
          | Some range =>
              match project (headers input) range with
              | None => mkMachine w rest (Some IndexOutOfBounds)
              | Some tuples => mkMachine w (output_code input tuples ++ rest) None
              end
          end
      end
  | IRemove p =>
      if path_exists (fs w) p then
        match remove_file (fs w) p with
        | Some f => mkMachine (with_fs w f) rest None
        | None => mkMachine w rest (Some (RemoveFailed p))
        end
      else mkMachine w rest None
  | ICreate p =>
      match file_create (fs w) p with
      | Some f => mkMachine (with_fs w f) rest None
      | None => mkMachine w rest (Some (CreateFailed p))
      end
  | IWrite p ns cls tuples =>
      match render ns cls tuples with
      | Some text => mkMachine (with_fs w (write_all (fs w) p text)) rest None
      | None => mkMachine w rest (Some RenderFailed)
      end
  | IPrint p => mkMachine (mkWorld (fs w) (stdout w ++ [Generated p])) rest None
  end.

Definition step_fn (m : Machine) : option Machine :=
  match halt m, code m with
  | None, ins :: rest => Some (exec (mworld m) ins rest)
  | _, _ => None
  end.

(** Runs the machine for at most [n] steps. *)
Fixpoint run_n (n : nat) (m : Machine) : Machine :=
  match n with
  | 0 => m
  | S n => match step_fn m with Some m' => run_n n m' | None => m end
  end.
End Step.

(** ** Invariants *)

(** The code writes only paths of [outs], and every other path holds what
    it held in [w]. *)
Definition frame_inv (w : World) (outs : list string) (m : Machine) : Prop :=
  Forall (λ ins, instr_path ins ∈ outs) (code m) ∧
  ∀ q, q ∉ outs → files (fs (mworld m)) !! q = files (fs w) !! q.

(** The stages of one job started in [w], with what its output path holds
    at each: before the job, after the projection, after the removal, after
    the creation, after the write; or halted by a panic. *)
Definition cw_inv `{T : Template} (w : World) (i : Input) (m : Machine) : Prop :=
  let cur := files (fs (mworld m)) !! out_path i in
  let old := files (fs w) !! out_path i in
  (halt m = None ∧ code m = [IJob i] ∧ mworld m = w)
  ∨ (∃ excel range tuples,
       open_workbook (fs w) (in_path i) = Some excel ∧
       worksheet_range excel (work_sheet_name i) = Some range ∧
       project (headers i) range = Some tuples ∧ halt m = None ∧
       (code m = output_code i tuples ∧ cur = old
        ∨ code m = drop 1 (output_code i tuples) ∧ (cur = old ∨ cur = None)
        ∨ code m = drop 2 (output_code i tuples) ∧ cur = Some (Text "")
        ∨ (code m = drop 3 (output_code i tuples) ∨ code m = []) ∧
          ∃ text, render (namespace i) (class_name i) tuples = Some text ∧ cur = Some (Text text)))
  ∨ (halt m ≠ None ∧ (cur = old ∨ cur = None ∨ cur = Some (Text ""))).

(** ** Lemmas *)

Section MachineLemmas.
Context `{T : Template}.

Lemma step_fn_spec m m' : step m m' ↔ step_fn m = Some m'.
Proof.
  split.
  - destruct 1; cbn; unfold exec;
      repeat match goal with H : ?a = _ |- context [?a] => rewrite H end; done.
  - destruct m as [w [|ins rest] [p|]]; cbn; try done. intros [= <-].
    destruct ins; cbn; repeat case_match; econstructor; eauto.
Qed.

(** Running a number of steps follows the step relation. *)
Lemma run_n_rtc n m : rtc step m (run_n n m).
Proof.
  revert m. induction n as [|n IH]; intros m; cbn; [done|].
  destruct (step_fn m) as [m'|] eqn:Hs; [|done].
  eapply rtc_l; [by apply step_fn_spec|]. apply IH.
Qed.

(** The four output instructions compute [write_output]. *)
Lemma output_steps w input tuples rest :
  match write_output w input tuples with
  | HOk w' => run_n 4 (mkMachine w (output_code input tuples ++ rest) None) = mkMachine w' rest None
  | HErr e w' => mworld (run_n 4 (mkMachine w (output_code input tuples ++ rest) None)) = w' ∧
                 halt (run_n 4 (mkMachine w (output_code input tuples ++ rest) None)) = Some (JobFailed e)
  | HPanic p w' => mworld (run_n 4 (mkMachine w (output_code input tuples ++ rest) None)) = w' ∧
                   halt (run_n 4 (mkMachine w (output_code input tuples ++ rest) None)) = Some p
  end.
Proof.
  unfold write_output. cbv zeta.
  destruct (path_exists (fs w) (out_path input)) eqn:He;
    [destruct (remove_file (fs w) (out_path input)) as [f1|] eqn:Hr|];
    [destruct (file_create f1 (out_path input)) as [f2|] eqn:Hc| |
     destruct (file_create (fs w) (out_path input)) as [f2|] eqn:Hc];
    try destruct (render (namespace input) (class_name input) tuples) as [text|] eqn:Hd;
    cbn; repeat (match goal with H : ?a = _ |- context [?a] => rewrite H; cbn end); repeat split; try reflexivity; by destruct w.
Qed.
(** One [IJob] and the instructions it schedules compute [handle_input]. *)
Lemma job_steps w input rest :
  match handle_input w input with
  | HOk w' => run_n 5 (mkMachine w (IJob input :: rest) None) = mkMachine w' rest None
  | HErr e w' => mworld (run_n 5 (mkMachine w (IJob input :: rest) None)) = w' ∧
                 halt (run_n 5 (mkMachine w (IJob input :: rest) None)) = Some (JobFailed e)
  | HPanic p w' => mworld (run_n 5 (mkMachine w (IJob input :: rest) None)) = w' ∧
                   halt (run_n 5 (mkMachine w (IJob input :: rest) None)) = Some p
  end.
Proof.
  unfold handle_input.
  destruct (open_workbook (fs w) (in_path input)) as [excel|] eqn:Ho; [|cbn; by rewrite Ho].
  destruct (worksheet_range excel (work_sheet_name input)) as [range|] eqn:Hw;
    [|cbn; by rewrite Ho, Hw].
  destruct (project (headers input) range) as [tuples|] eqn:Hp; [|cbn; by rewrite Ho, Hw, Hp].
  assert (run_n 5 (mkMachine w (IJob input :: rest) None)
          = run_n 4 (mkMachine w (output_code input tuples ++ rest) None)) as ->
    by (cbn [run_n step_fn halt code mworld exec]; by rewrite Ho, Hw, Hp).
  apply output_steps.
Qed.

(** The machine of a job list reaches the outcome of [run_jobs]. *)
Lemma run_steps w inputs :
  ∃ m', rtc step (boot w inputs) m' ∧ is_final m' = true ∧ outcome_of m' = run_jobs w inputs.
Proof.
  revert w. induction inputs as [|i rest IH]; intros w; [by exists (boot w [])|].
  pose proof (job_steps w i (IJob <$> rest)) as Hj.
  pose proof (run_n_rtc 5 (mkMachine w (IJob i :: (IJob <$> rest)) None)) as Hr.
  cbn [run_jobs]. destruct (handle_input w i) as [w'|e w'|p w'].
  - rewrite Hj in Hr. destruct (IH w') as (m' & Hm & Hf & Ho).
    exists m'. split_and!; [|done|done]. eapply rtc_trans; [exact Hr|exact Hm].
  - destruct Hj as [Hw Hh]. eexists. split_and!; [exact Hr|..];
      unfold is_final, outcome_of; by rewrite Hh, ?Hw.
  - destruct Hj as [Hw Hh]. eexists. split_and!; [exact Hr|..];
      unfold is_final, outcome_of; by rewrite Hh, ?Hw.
Qed.

(** Each step keeps the frame. *)
Lemma frame_step w outs m m' : frame_inv w outs m → step m m' → frame_inv w outs m'.
Proof.
  intros [Hc Hq] Hs.
  destruct Hs; cbn [code mworld] in *; apply Forall_cons in Hc as [Hp Hc]; cbn [instr_path] in Hp;
    split; try done; try (apply Forall_app; split; [by repeat constructor|done]);
    intros q Hq'; rewrite <-(Hq q Hq'); cbn [fs with_fs]; try done.
  all: cbn [mworld fs with_fs].
  all: first [eapply remove_file_other; solve [eauto | intros ->; contradiction]
             |eapply file_create_other; solve [eauto | intros ->; contradiction]
             |apply write_all_other; intros ->; contradiction].
Qed.
(** Each step keeps the stages of a single job. *)
Lemma cw_step w i m m' : cw_inv w i m → step m m' → cw_inv w i m'.
Proof.
  unfold cw_inv. intros Hinv Hs%step_fn_spec. destruct m as [mw c h].
  destruct Hinv as [(Hh & Hc & Hw)|[(excel & range & tuples & Ho & Hr & Hp & Hh & Hst)|(Hh & _)]];
    cbn [halt code mworld] in *; subst; [| |by destruct h].
  - (* the job: open, find, project *)
    cbn in Hs. injection Hs as <-. unfold exec.
    destruct (open_workbook (fs w) (in_path i)) as [excel|] eqn:Ho; [|right; right; by split; [|left]].
    destruct (worksheet_range excel (work_sheet_name i)) as [range|] eqn:Hr;
      [|right; right; by split; [|left]].
    destruct (project (headers i) range) as [tuples|] eqn:Hp; [|right; right; by split; [|left]].
    right; left. exists excel, range, tuples. split_and!; try done. left. done.
  - right. destruct Hst as [[-> Hcur]|[[-> Hcur]|[[-> Hcur]|[[-> | ->] (text & Ht & Hcur)]]]];
      cbn in Hs; try done; injection Hs as <-; cbn [exec].
    + (* remove *)
      destruct (path_exists (fs mw) (out_path i)) eqn:He;
        [destruct (remove_file (fs mw) (out_path i)) as [f|] eqn:Hrm|].
      * left. exists excel, range, tuples. split_and!; try done. right; left. split; [done|].
        right. cbn. apply remove_file_Some in Hrm as (_ & _ & ->). apply lookup_delete_eq.
      * right. split; [done|]. by left.
      * left. exists excel, range, tuples. split_and!; try done. right; left. by split; [|left].
    + (* create *)
      destruct (file_create (fs mw) (out_path i)) as [f|] eqn:Hcr.
      * left. exists excel, range, tuples. split_and!; try done. right; right; left. split; [done|].
        cbn. apply file_create_Some in Hcr as [_ ->]. apply lookup_insert_eq.
      * right. split; [done|]. destruct Hcur; [by left|by right; left].
    + (* write *)
      destruct (render (namespace i) (class_name i) tuples) as [text|] eqn:Ht.
      * left. exists excel, range, tuples. split_and!; try done. right; right; right.
        split; [by left|]. exists text. split; [done|]. cbn.
        rewrite write_all_created by done. apply lookup_insert_eq.
      * right. split; [done|]. by right; right.
    + (* print *)
      left. exists excel, range, tuples. split_and!; try done. right; right; right.
      split; [by right|]. eauto.
Qed.
Lemma frame_rtc w outs m m' : frame_inv w outs m → rtc step m m' → frame_inv w outs m'.
Proof. intros Hi Hr. induction Hr; eauto using frame_step. Qed.

Lemma cw_rtc w i m m' : cw_inv w i m → rtc step m m' → cw_inv w i m'.
Proof. intros Hi Hr. induction Hr; eauto using cw_step. Qed.

End MachineLemmas.

(** ** Theorems *)

Section MachineClaims.
Context `{T : Template}.

(** C14: Frame: at every state of a run, a path that is no job's output
    path (the configuration file, the workbooks) holds what it held at the
    start. *)
Theorem machine_frame w inputs m q :
  rtc step (boot w inputs) m → q ∉ out_path <$> inputs →
  files (fs (mworld m)) !! q = files (fs w) !! q.
Proof.
  intros Hr Hq. eapply frame_rtc in Hr as [_ Hf]; [by apply Hf|]. split; [|done].
  apply Forall_fmap, Forall_forall. intros i Hi. cbn. by apply list_elem_of_fmap_2.
Qed.

(** C7: The crash windows of the output replacement (lines 112-117): at
    every state of a job, the output path holds its old contents, nothing
    (after the removal), an empty file (after the creation) or the rendered
    text; a crash between the steps leaves one of the first three. *)
Theorem output_crash_states w i m :
  rtc step (mkMachine w [IJob i] None) m →
  files (fs (mworld m)) !! out_path i = files (fs w) !! out_path i ∨
  files (fs (mworld m)) !! out_path i = None ∨
  files (fs (mworld m)) !! out_path i = Some (Text "") ∨
  ∃ excel text, open_workbook (fs w) (in_path i) = Some excel ∧ job_text i excel = Some text ∧
    files (fs (mworld m)) !! out_path i = Some (Text text).
Proof.
  intros Hr. eapply cw_rtc in Hr; [|by left].
  destruct Hr as [(_ & _ & ->)|[(excel & range & tuples & Ho & Hw & Hp & _ & Hst)|(_ & Hcur)]];
    [by left| |naive_solver].
  destruct Hst as [[_ ?]|[[_ [?|?]]|[[_ ?]|[_ (text & Ht & ?)]]]]; try naive_solver.
  right; right; right. exists excel, text. split; [done|]. split; [|done].
  unfold job_text. rewrite Hw. cbn. by rewrite Hp.
Qed.
End MachineClaims.

(** Witness of C14: the run of the sample job leaves the workbook alone. *)
Lemma machine_frame_witness :
  files (fs (mworld (run_n 5 (boot (demo_world "[item]") [demo_job])))) !! "item.xlsx"
  = files (fs (demo_world "[item]")) !! "item.xlsx".
Proof.
  apply (machine_frame (demo_world "[item]") [demo_job]); [apply run_n_rtc|].
  apply (bool_decide_unpack _). vm_compute. reflexivity.
Defined.

(** Witness of C7: two steps into the sample job the old [Item.cs] is
    gone and the new one not yet created. *)
Lemma output_crash_states_witness :
  files (fs (mworld (run_n 2 (mkMachine (demo_world "[item]") [IJob demo_job] None)))) !! "Item.cs" = None ∧
  (files (fs (mworld (run_n 2 (mkMachine (demo_world "[item]") [IJob demo_job] None)))) !! out_path demo_job
     = files (fs (demo_world "[item]")) !! out_path demo_job ∨
   files (fs (mworld (run_n 2 (mkMachine (demo_world "[item]") [IJob demo_job] None)))) !! out_path demo_job = None ∨
   files (fs (mworld (run_n 2 (mkMachine (demo_world "[item]") [IJob demo_job] None)))) !! out_path demo_job
     = Some (Text "") ∨
   ∃ excel text, open_workbook (fs (demo_world "[item]")) (in_path demo_job) = Some excel ∧
     job_text demo_job excel = Some text ∧
     files (fs (mworld (run_n 2 (mkMachine (demo_world "[item]") [IJob demo_job] None)))) !! out_path demo_job
       = Some (Text text)).
Proof.
  split; [vm_compute; reflexivity|].
  apply (output_crash_states (T := code_txt)). apply run_n_rtc.
Defined.
